(** * md-to-docx: the Markdown line scanner of [scripts/md-to-docx.py]

    A shallow embedding of the script and the properties of its
    classification rules.  Python text is a sequence of Unicode code
    points, the scanner's locals ([i], [in_code_block], [code_lines]) and
    the document under construction form an explicit state, and every
    Python exception the script can meet (an index out of range, a file
    that cannot be opened) is a [Raise] of the result type.

    The document library (python-docx) is modelled by the part of its
    object model that the script touches: paragraphs with runs, tables
    with rows of cells, styles and sizes as plain values. *)

From Stdlib Require Import String Ascii List NArith Bool Arith Lia.
Import ListNotations.

Set Implicit Arguments.

(** ** Python [str] *)

(** A character is its code point; a [str] is a list of them. *)
Definition char := N.
Definition str := list char.

(** [u "..."] reads an ASCII literal as a [str]. *)
Fixpoint u (s : string) : str :=
  match s with
  | EmptyString => []
  | String a s' => N_of_ascii a :: u s'
  end.

Definition LF : char := 10%N.
Definition PIPE : char := 124%N.
Definition STAR : char := 42%N.

Definition in_ranges (tbl : list (N * N)) (c : char) : bool :=
  existsb (fun r => (fst r <=? c)%N && (c <=? snd r)%N) tbl.

(** The characters [str.strip] and [str.rstrip] remove when called without
    argument: those for which [str.isspace] holds. *)
Definition whitespace_table : list (N * N) :=
  [ (9, 13); (28, 32); (133, 133); (160, 160); (5760, 5760); (8192, 8202);
    (8232, 8233); (8239, 8239); (8287, 8287); (12288, 12288) ]%N.

(** The characters [\d] matches in a [str] pattern: the decimal digits of
    every script (Unicode 14.0, the table of CPython 3.11). *)
Definition decimal_table : list (N * N) :=
  [ (48, 57); (1632, 1641); (1776, 1785); (1984, 1993); (2406, 2415);
    (2534, 2543); (2662, 2671); (2790, 2799); (2918, 2927); (3046, 3055);
    (3174, 3183); (3302, 3311); (3430, 3439); (3558, 3567); (3664, 3673);
    (3792, 3801); (3872, 3881); (4160, 4169); (4240, 4249); (6112, 6121);
    (6160, 6169); (6470, 6479); (6608, 6617); (6784, 6793); (6800, 6809);
    (6992, 7001); (7088, 7097); (7232, 7241); (7248, 7257); (42528, 42537);
    (43216, 43225); (43264, 43273); (43472, 43481); (43504, 43513);
    (43600, 43609); (44016, 44025); (65296, 65305); (66720, 66729);
    (68912, 68921); (69734, 69743); (69872, 69881); (69942, 69951);
    (70096, 70105); (70384, 70393); (70736, 70745); (70864, 70873);
    (71248, 71257); (71360, 71369); (71472, 71481); (71904, 71913);
    (72016, 72025); (72784, 72793); (73040, 73049); (73120, 73129);
    (92768, 92777); (92864, 92873); (93008, 93017); (120782, 120831);
    (123200, 123209); (123632, 123641); (125264, 125273);
    (130032, 130041) ]%N.

Definition isspace (c : char) : bool := in_ranges whitespace_table c.
Definition isdecimal (c : char) : bool := in_ranges decimal_table c.

(** The longest prefix whose elements satisfy [p], and what follows it. *)
Fixpoint take_while {A : Type} (p : A -> bool) (s : list A) : list A :=
  match s with
  | c :: s' => if p c then c :: take_while p s' else []
  | [] => []
  end.

Fixpoint drop_while {A : Type} (p : A -> bool) (s : list A) : list A :=
  match s with
  | c :: s' => if p c then drop_while p s' else s
  | [] => []
  end.

Module Str.

(** [s.startswith(prefix)] *)
Fixpoint startswith (prefix s : str) : bool :=
  match prefix, s with
  | [], _ => true
  | p :: prefix', c :: s' => (p =? c)%N && startswith prefix' s'
  | _ :: _, [] => false
  end.

(** [sub in s] *)
Fixpoint contains (sub s : str) : bool :=
  startswith sub s ||
  match s with
  | [] => false
  | _ :: s' => contains sub s'
  end.

Definition lstrip (s : str) : str := drop_while isspace s.

(** [s.rstrip()]: the whitespace is removed from the right end. *)
Definition rstrip (s : str) : str := rev (lstrip (rev s)).

Definition strip (s : str) : str := lstrip (rstrip s).

(** [s.split(sep)] for a separator of one character: one more segment
    than there are separators, empty segments kept. *)
Fixpoint split (sep : char) (s : str) : list str :=
  match s with
  | [] => [[]]
  | c :: s' =>
      if (c =? sep)%N then [] :: split sep s'
      else match split sep s' with
           | seg :: segs => (c :: seg) :: segs
           | [] => [[c]]
           end
  end.

(** [sep.join(parts)] *)
Fixpoint join (sep : str) (parts : list str) : str :=
  match parts with
  | [] => []
  | [p] => p
  | p :: parts' => p ++ sep ++ join sep parts'
  end.

(** [s.replace(old, new)] for a non-empty [old]: every occurrence of
    [old], found from the left and not overlapping, becomes [new].  Each
    round consumes at least one character of [s], so [length s] rounds
    (and one for the empty rest) are enough. *)
Fixpoint replace_from (fuel : nat) (old new s : str) : str :=
  match fuel with
  | 0 => s
  | S fuel' =>
      if startswith old s
      then new ++ replace_from fuel' old new (skipn (length old) s)
      else match s with
           | [] => []
           | c :: s' => c :: replace_from fuel' old new s'
           end
  end.

Definition replace (old new s : str) : str :=
  replace_from (S (length s)) old new s.

End Str.

(** [l[1:-1]] *)
Definition slice_1_m1 {A : Type} (l : list A) : list A := removelast (tl l).

(** [enumerate(l)] *)
Fixpoint enumerate_from {A : Type} (j : nat) (l : list A) : list (nat * A) :=
  match l with
  | [] => []
  | x :: l' => (j, x) :: enumerate_from (S j) l'
  end.

Definition enumerate {A : Type} (l : list A) : list (nat * A) :=
  enumerate_from 0 l.

(** ** The two regular expressions *)

Module Re.

(** [re.match(r'^\d+\.', line)]: one or more decimal digits at the start
    of the line, then a period.  The period is no digit, so the greedy
    [\d+] has only one way to succeed: with all the leading digits. *)
Definition match_ordered (line : str) : bool :=
  match take_while isdecimal line with
  | [] => false
  | _ :: _ => Str.startswith (u ".") (drop_while isdecimal line)
  end.

Definition not_star (c : char) : bool := negb (c =? STAR)%N.

(** One attempt of [\*\*([^*]+)\*\*] at the start of [s]: the group and
    the text after the match.  After the two stars the group takes the
    whole run of characters other than a star (a shorter group would be
    followed by a character of the run, not by a star), the run has to be
    non-empty and two stars have to follow it. *)
Definition match_bold (s : str) : option (str * str) :=
  match s with
  | c1 :: c2 :: t =>
      if (c1 =? STAR)%N && (c2 =? STAR)%N then
        match take_while not_star t with
        | [] => None
        | g => if Str.startswith [STAR; STAR] (drop_while not_star t)
               then Some (g, skipn 2 (drop_while not_star t))
               else None
        end
      else None
  | _ => None
  end.

(** [re.split(r'\*\*([^*]+)\*\*', s)]: the matches are searched from the
    left; each one closes the text collected before it ([acc], reversed)
    and contributes its group, and the search goes on after the match.
    The text after the last match is the last element.  Every round
    consumes a character, so [S (length s)] rounds are enough. *)
Fixpoint split_from (fuel : nat) (acc s : str) : list str :=
  match fuel with
  | 0 => [rev acc ++ s]
  | S fuel' =>
      match match_bold s with
      | Some (g, rest) => rev acc :: g :: split_from fuel' [] rest
      | None =>
          match s with
          | [] => [rev acc]
          | c :: s' => split_from fuel' (c :: acc) s'
          end
      end
  end.

Definition split (s : str) : list str := split_from (S (length s)) [] s.

End Re.

(** ** Exceptions *)

Inductive exn :=
| IndexError
| FileNotFoundError
| UnicodeDecodeError
| OSError
| ValueError
| SystemExit (status : N).

Inductive result (A : Type) : Type :=
| Ok (a : A)
| Raise (e : exn).

Arguments Ok {A} a.
Arguments Raise {A} e.

Definition bind {A B : Type} (c : result A) (k : A -> result B) : result B :=
  match c with
  | Ok a => k a
  | Raise e => Raise e
  end.

Notation "x <- c ;; k" := (bind c (fun x => k))
  (at level 61, c at next level, right associativity).

(** [l[j]] *)
Definition index {A : Type} (l : list A) (j : nat) : result A :=
  match nth_error l j with
  | Some x => Ok x
  | None => Raise IndexError
  end.

(** [l[j]] changed in place by [f]. *)
Fixpoint update_at {A : Type} (j : nat) (f : A -> A) (l : list A)
  : result (list A) :=
  match l, j with
  | [], _ => Raise IndexError
  | x :: l', 0 => Ok (f x :: l')
  | x :: l', S j' => l'' <- update_at j' f l' ;; Ok (x :: l'')
  end.

(** ** The document object model *)

(** Lengths are in English Metric Units, as [docx.shared.Length]. *)
Definition Pt (points : N) : N := (points * 12700)%N.
Definition Inches (num den : N) : N := (num * 914400 / den)%N.

Record run := mk_run {
  run_text : str;
  run_bold : bool;
  run_italic : bool;
  font_name : option str;
  font_size : option N;
  font_color : option (N * N * N)
}.

Record paragraph := mk_paragraph {
  par_style : option str;
  left_indent : option N;
  space_before : option N;
  space_after : option N;
  runs : list run
}.

(** A table cell holds paragraphs. *)
Definition cell := list paragraph.

Record table := mk_table {
  table_style : option str;
  table_cols : nat;
  table_rows : list (list cell)
}.

Inductive element :=
| Par (p : paragraph)
| Tbl (t : table).

Definition document := list element.

(** [p.add_run(text)], for a text the library accepts: it raises
    [ValueError] on a text with a character XML cannot carry, and the
    statements that depend on it are for the texts of [xml_text]. *)
Definition new_run (text : str) : run :=
  mk_run text false false None None None.

(** [doc.add_paragraph()] *)
Definition empty_paragraph : paragraph :=
  mk_paragraph None None None None [].

Definition add_run (p : paragraph) (r : run) : paragraph :=
  mk_paragraph (par_style p) (left_indent p) (space_before p) (space_after p)
    (runs p ++ [r]).

Definition set_bold (r : run) : run :=
  mk_run (run_text r) true (run_italic r) (font_name r) (font_size r)
    (font_color r).

Definition set_italic (r : run) : run :=
  mk_run (run_text r) (run_bold r) true (font_name r) (font_size r)
    (font_color r).

Definition set_font_name (name : str) (r : run) : run :=
  mk_run (run_text r) (run_bold r) (run_italic r) (Some name) (font_size r)
    (font_color r).

Definition set_font_size (size : N) (r : run) : run :=
  mk_run (run_text r) (run_bold r) (run_italic r) (font_name r) (Some size)
    (font_color r).

Definition set_font_color (rgb : N * N * N) (r : run) : run :=
  mk_run (run_text r) (run_bold r) (run_italic r) (font_name r) (font_size r)
    (Some rgb).

(** [doc.add_heading(text, level)] of the library: the level is 0 to 9,
    or the call raises; the paragraph has the style "Title" at level 0 and
    "Heading <level>" above it, with one run when [text] is not empty and
    none otherwise. *)
Definition heading_paragraph (text : str) (level : nat) : result paragraph :=
  if 9 <? level then Raise ValueError
  else
    Ok (mk_paragraph
          (Some (if level =? 0 then u "Title"
                 else u "Heading " ++ [(48 + N.of_nat level)%N]))
          None None None
          match text with
          | [] => []
          | _ :: _ => [new_run text]
          end).

(** [heading.runs[0]] changed in place. *)
Definition update_first_run (f : run -> run) (p : paragraph)
  : result paragraph :=
  rs <- update_at 0 f (runs p) ;;
  Ok (mk_paragraph (par_style p) (left_indent p) (space_before p)
        (space_after p) rs).

Definition add_heading (doc : document) (text : str) (level : nat)
  : result document :=
  heading <- heading_paragraph text level ;;
  heading' <-
    (if level =? 1 then
       update_first_run
         (fun r => set_font_color (0, 0, 0)%N (set_font_size (Pt 18) r)) heading
     else if level =? 2 then
       update_first_run
         (fun r => set_font_color (31, 41, 55)%N (set_font_size (Pt 14) r))
         heading
     else Ok heading) ;;
  Ok (doc ++ [Par heading']).

Definition add_paragraph (doc : document) (text : str)
    (bold italic code : bool) : document :=
  let run := set_font_name (u "Calibri") (set_font_size (Pt 11) (new_run text)) in
  let run := if bold then set_bold run else run in
  let run := if italic then set_italic run else run in
  let run :=
    if code then set_font_size (Pt 10) (set_font_name (u "Consolas") run)
    else run in
  let p :=
    mk_paragraph None (if code then Some (Inches 1 4) else None) None None
      [run] in
  doc ++ [Par p].

Definition add_code_block (doc : document) (code : str) : document :=
  let run := set_font_size (Pt 9) (set_font_name (u "Consolas") (new_run code)) in
  doc ++ [Par (mk_paragraph (Some (u "Intense Quote")) (Some (Inches 1 2))
                 (Some (Pt 6)) (Some (Pt 6)) [run])].

(** [cell.text = text]: the cell's content becomes one paragraph with one
    run. *)
Definition cell_with_text (text : str) : cell :=
  [add_run empty_paragraph (new_run text)].

(** The cell of a new row: one empty paragraph. *)
Definition empty_cell : cell := [empty_paragraph].

(** [for paragraph in c.paragraphs: for run in paragraph.runs:
    run.font.bold = True] *)
Definition bold_cell (c : cell) : cell :=
  map (fun p => mk_paragraph (par_style p) (left_indent p) (space_before p)
                  (space_after p) (map set_bold (runs p))) c.

(** [for j, cell_text in enumerate(cells): row[j].text = cell_text],
    followed for each cell by [after]. *)
Fixpoint fill_cells (after : cell -> cell) (entries : list (nat * str))
    (row : list cell) : result (list cell) :=
  match entries with
  | [] => Ok row
  | (j, cell_text) :: entries' =>
      row' <- update_at j (fun _ => after (cell_with_text cell_text)) row ;;
      fill_cells after entries' row'
  end.

(** [table.add_row()] and the loop that fills its cells. *)
Definition add_row (t : table) (cells : list str) : result table :=
  row <- fill_cells (fun c => c) (enumerate cells)
           (repeat empty_cell (table_cols t)) ;;
  Ok (mk_table (table_style t) (table_cols t) (table_rows t ++ [row])).

(** ** The scanner *)

(** The locals of [parse_markdown_to_docx] that live across iterations of
    its [while] loop, and the document. *)
Record state := mk_state {
  i : nat;
  in_code_block : bool;
  code_lines : list str;
  doc : document
}.

Definition initial : state := mk_state 0 false [] [].

(** The branch of the [if]/[elif] chain a right-stripped line selects; the
    tests are those of the source, in its order. *)
Inductive kind :=
| Fence
| Heading (level : nat)
| Rule
| Bullet
| Ordered
| Bold
| Pipe
| Plain
| Blank.

Definition classify (line : str) : kind :=
  if Str.startswith (u "```") line then Fence
  else if Str.startswith (u "# ") line then Heading 1
  else if Str.startswith (u "## ") line then Heading 2
  else if Str.startswith (u "### ") line then Heading 3
  else if Str.startswith (u "#### ") line then Heading 4
  else if Str.startswith (u "---") line then Rule
  else if Str.startswith (u "- ") line || Str.startswith (u "* ") line
  then Bullet
  else if Re.match_ordered line then Ordered
  else if Str.contains (u "**") line then Bold
  else if Str.contains (u "|") line && negb (Str.startswith (u "|---") line)
  then Pipe
  else match Str.strip line with
       | _ :: _ => Plain
       | [] => Blank
       end.

(** [[cell.strip() for cell in line.split('|')[1:-1]]] *)
Definition cells_of (line : str) : list str :=
  map Str.strip (slice_1_m1 (Str.split PIPE line)).

(** The bullet glyph and the space after it. *)
Definition bullet : str := [8226%N; 32%N].

(** The runs of the inline-bold rule: [for j, part in enumerate(parts)]. *)
Definition bold_runs (parts : list str) : list run :=
  map (fun jp =>
         let run := set_font_size (Pt 11) (new_run (snd jp)) in
         if Nat.eqb (fst jp mod 2) 1 then set_bold run else run)
      (enumerate parts).

(** The inner loop of the table rule, [while i < len(lines) and '|' in
    lines[i]], over the lines from index [j] on; it returns the table and
    the index it stops at. *)
Fixpoint add_data_rows (num_cols : nat) (rest : list str) (t : table)
    (j : nat) : result (table * nat) :=
  match rest with
  | [] => Ok (t, j)
  | l :: rest' =>
      if Str.contains (u "|") l then
        let cells := cells_of l in
        t' <- (if length cells =? num_cols then add_row t cells else Ok t) ;;
        add_data_rows num_cols rest' t' (S j)
      else Ok (t, j)
  end.

(** [i + 1 < len(lines) and lines[i + 1].startswith('|---')] *)
Definition separator_follows (lines : list str) (j : nat) : bool :=
  match nth_error lines (S j) with
  | Some next => Str.startswith (u "|---") next
  | None => false
  end.

(** The state after [i += 1] with nothing emitted. *)
Definition advance (st : state) : state :=
  mk_state (S (i st)) (in_code_block st) (code_lines st) (doc st).

(** The state after [i += 1] with the document replaced. *)
Definition emit (st : state) (d : document) : state :=
  mk_state (S (i st)) (in_code_block st) (code_lines st) d.

(** The table rule once the separator is found. *)
Definition table_rule (lines : list str) (st : state) (cells : list str)
  : result state :=
  let num_cols := length cells in
  hdr_cells <- fill_cells bold_cell (enumerate cells)
                 (repeat empty_cell num_cols) ;;
  let t := mk_table (Some (u "Light Grid Accent 1")) num_cols [hdr_cells] in
  tj <- add_data_rows num_cols (skipn (i st + 2) lines) t (i st + 2) ;;
  Ok (mk_state (snd tj) (in_code_block st) (code_lines st)
        (doc st ++ [Tbl (fst tj)])).

(** One iteration of the [while i < len(lines)] loop.  The fence test
    comes first, then the test of [in_code_block], then the rest of the
    chain. *)
Definition body (lines : list str) (st : state) : result state :=
  raw <- index lines (i st) ;;
  let line := Str.rstrip raw in
  match classify line, in_code_block st with
  | Fence, true =>
      Ok (mk_state (S (i st)) false []
            (add_code_block (doc st) (Str.join [LF] (code_lines st))))
  | Fence, false => Ok (mk_state (S (i st)) true (code_lines st) (doc st))
  | _, true => Ok (mk_state (S (i st)) true (code_lines st ++ [line]) (doc st))
  | Heading level, false =>
      d <- add_heading (doc st) (skipn (S level) line) level ;;
      Ok (emit st d)
  | Rule, false => Ok (emit st (doc st ++ [Par empty_paragraph]))
  | Bullet, false =>
      Ok (emit st (add_paragraph (doc st) (bullet ++ skipn 2 line)
                     false false false))
  | Ordered, false =>
      Ok (emit st (add_paragraph (doc st) line false false false))
  | Bold, false =>
      let parts := Re.split line in
      let p := fold_left add_run (bold_runs parts) empty_paragraph in
      Ok (emit st (doc st ++ [Par p]))
  | Pipe, false =>
      match cells_of line with
      | [] => Ok (advance st)
      | cells =>
          if separator_follows lines (i st)
          then table_rule lines st cells
          else Ok (advance st)
      end
  | Plain, false =>
      Ok (emit st (add_paragraph (doc st) line false false false))
  | Blank, false => Ok (advance st)
  end.

(** The [while] loop; every iteration moves [i] forward, so [len(lines)]
    iterations are enough (lemma [loop_exits]). *)
Fixpoint loop (fuel : nat) (lines : list str) (st : state) : result state :=
  match fuel with
  | 0 => Ok st
  | S fuel' =>
      if i st <? length lines
      then st' <- body lines st ;; loop fuel' lines st'
      else Ok st
  end.

(** The document [parse_markdown_to_docx] hands to [doc.save]. *)
Definition scan (lines : list str) : result document :=
  st <- loop (length lines) lines initial ;; Ok (doc st).

(** ** Files and the entry point *)

Definition path := str.

Section IO.

(** What a file holds is left to the codec and to the document library:
    [readlines] is [open(..., 'r', encoding='utf-8')] followed by
    [f.readlines()] on a file that exists, and [save] is [doc.save]. *)
Variable content : Type.
Variable readlines : content -> result (list str).
Variable save :
  document -> path -> (path -> option content) ->
  (path -> option content) * result unit.

Record world := mk_world {
  files : path -> option content;
  stdout : list str
}.

Definition print (msg : str) (w : world) : world :=
  mk_world (files w) (stdout w ++ [msg]).

Definition open_readlines (w : world) (md_file : path)
  : result (list str) :=
  match files w md_file with
  | None => Raise FileNotFoundError
  | Some c => readlines c
  end.

Definition converted (md_file docx_file : path) : str :=
  [9989%N] ++ u " Converted " ++ md_file ++ [32%N; 8594%N; 32%N] ++ docx_file.

(** The font of the "Normal" style, set before the file is opened, is the
    same for every document and no part of the element list. *)
Definition parse_markdown_to_docx (md_file docx_file : path) (w : world)
  : world * result unit :=
  match open_readlines w md_file with
  | Raise e => (w, Raise e)
  | Ok lines =>
      match scan lines with
      | Raise e => (w, Raise e)
      | Ok d =>
          match save d docx_file (files w) with
          | (fs, Raise e) => (mk_world fs (stdout w), Raise e)
          | (fs, Ok _) =>
              (print (converted md_file docx_file) (mk_world fs (stdout w)),
               Ok tt)
          end
      end
  end.

Definition usage : str :=
  u "Usage: python md-to-docx.py <input.md> [output.docx]".

(** [sys.argv[2] if len(sys.argv) > 2 else
    input_file.replace('.md', '.docx')] *)
Definition output_file (argv : list str) (input_file : path) : result path :=
  if 2 <? length argv then index argv 2
  else Ok (Str.replace (u ".md") (u ".docx") input_file).

Definition main (argv : list str) (w : world) : world * result unit :=
  if length argv <? 2 then (print usage w, Raise (SystemExit 1))
  else
    match index argv 1 with
    | Raise e => (w, Raise e)
    | Ok input_file =>
        match output_file argv input_file with
        | Raise e => (w, Raise e)
        | Ok out => parse_markdown_to_docx input_file out w
        end
    end.

End IO.

(** ** Vocabulary of the statements *)

(** The source line that [split] cuts: text, group, text, group, ...,
    text, with the two stars put back around every group. *)
Fixpoint unsplit (parts : list str) : str :=
  match parts with
  | [] => []
  | [p] => p
  | p :: g :: rest => p ++ [STAR; STAR] ++ g ++ [STAR; STAR] ++ unsplit rest
  end.

(** The split of a line on its bold spans, as a relation.  A bold span is
    two stars, a non-empty text without a star and two stars; the spans are
    taken from the left, so no span starts in the text before the first
    one, and the text after the last span holds none. *)
Inductive splits : str -> list str -> Prop :=
| splits_end (s : str) :
    (forall k, Re.match_bold (skipn k s) = None) -> splits s [s]
| splits_span (pre g rest : str) (parts : list str) :
    (forall k, k < length pre ->
       Re.match_bold
         (skipn k (pre ++ [STAR; STAR] ++ g ++ [STAR; STAR] ++ rest)) = None) ->
    g <> [] -> forallb Re.not_star g = true ->
    splits rest parts ->
    splits (pre ++ [STAR; STAR] ++ g ++ [STAR; STAR] ++ rest)
      (pre :: g :: parts).

(** The states the loop of the scanner goes through on [lines]. *)
Inductive reachable (lines : list str) : state -> Prop :=
| reach_initial : reachable lines initial
| reach_body (st st' : state) :
    reachable lines st -> i st < length lines -> body lines st = Ok st' ->
    reachable lines st'.

Definition has_pipe (l : str) : bool := Str.contains (u "|") l.

(** A text without a pipe. *)
Definition no_pipe (s : str) : Prop :=
  forallb (fun c => negb (c =? PIPE)%N) s = true.

(** A paragraph of the default style holding the given runs. *)
Definition plain_paragraph (rs : list run) : paragraph :=
  mk_paragraph None None None None rs.

(** A header cell and a data cell of a table, written out. *)
Definition header_cell (text : str) : cell :=
  [plain_paragraph [mk_run text true false None None None]].

Definition data_cell (text : str) : cell :=
  [plain_paragraph [mk_run text false false None None None]].

(** The data rows a table receives from the lines that follow its
    separator. *)
Definition data_rows (num_cols : nat) (rest : list str) : list (list cell) :=
  map (map data_cell)
    (filter (fun cells => length cells =? num_cols)
       (map cells_of (take_while has_pipe rest))).

(** The code-block element of [add_code_block]. *)
Definition code_block (code : str) : element :=
  Par (mk_paragraph (Some (u "Intense Quote")) (Some 457200%N) (Some 76200%N)
         (Some 76200%N)
         [mk_run code false false (Some (u "Consolas")) (Some 114300%N) None]).

(** The paragraph of [add_paragraph(doc, text)]. *)
Definition text_paragraph (text : str) : element :=
  Par (plain_paragraph
         [mk_run text false false (Some (u "Calibri")) (Some 139700%N) None]).

(** A line of the input file: the text and its line feed. *)
Definition nl (s : string) : str := u s ++ [LF].

(** A table as the table rule leaves it: a header row of bold cells, one
    per column, and data rows of plain cells, as many per row as there are
    columns. *)
Definition table_ok (t : table) : Prop :=
  exists cells data,
    cells <> [] /\
    table_cols t = length cells /\
    table_rows t = map header_cell cells :: data /\
    Forall (fun row => exists texts,
                length texts = length cells /\ row = map data_cell texts)
      data.

Definition element_ok (e : element) : Prop :=
  match e with
  | Par _ => True
  | Tbl t => table_ok t
  end.

(** The heading [add_heading] appends for a text that is not empty. *)
Definition heading_element (level : nat) (text : str) : element :=
  Par (mk_paragraph (Some (u "Heading " ++ [(48 + N.of_nat level)%N]))
         None None None
         [mk_run text false false None
            (match level with
             | 1 => Some (Pt 18)
             | 2 => Some (Pt 14)
             | _ => None
             end)
            (match level with
             | 1 => Some (0, 0, 0)%N
             | 2 => Some (31, 41, 55)%N
             | _ => None
             end)]).

(** The prefix of a heading line: [level] number signs and a space. *)
Definition heading_prefix (level : nat) : str :=
  repeat 35%N level ++ [32%N].

(** The characters of XML 1.0: the document library takes a text made of
    them and raises [ValueError] on the control characters, the surrogates
    and the two last code points of the first plane. *)
Definition xml_char (c : char) : bool :=
  (c =? 9)%N || (c =? 10)%N || (c =? 13)%N ||
  ((32 <=? c)%N && (c <=? 55295)%N) ||
  ((57344 <=? c)%N && (c <=? 65533)%N) ||
  ((65536 <=? c)%N && (c <=? 1114111)%N).

Definition xml_text (s : str) : bool := forallb xml_char s.

(** The texts an element hands to the library are texts it accepts. *)
Definition paragraph_texts_ok (p : paragraph) : bool :=
  forallb (fun r => xml_text (run_text r)) (runs p).

Definition element_texts_ok (e : element) : bool :=
  match e with
  | Par p => paragraph_texts_ok p
  | Tbl t => forallb (forallb (forallb paragraph_texts_ok)) (table_rows t)
  end.

Definition document_texts_ok (d : document) : bool :=
  forallb element_texts_ok d.

(** ** Strings *)

Lemma take_drop_while {A : Type} (p : A -> bool) (s : list A) :
  take_while p s ++ drop_while p s = s.
Proof.
  induction s as [|c s IH]; simpl; [reflexivity|].
  destruct (p c); simpl; [now rewrite IH | reflexivity].
Qed.

Lemma take_while_all {A : Type} (p : A -> bool) (s : list A) :
  forallb p (take_while p s) = true.
Proof.
  induction s as [|c s IH]; simpl; [reflexivity|].
  destruct (p c) eqn:E; simpl; [now rewrite E | reflexivity].
Qed.

Lemma drop_while_length {A : Type} (p : A -> bool) (s : list A) :
  length (drop_while p s) <= length s.
Proof.
  induction s as [|c s IH]; simpl; [lia|].
  destruct (p c); simpl; lia.
Qed.

Lemma drop_while_head {A : Type} (p : A -> bool) (s : list A) c r :
  drop_while p s = c :: r -> p c = false.
Proof.
  induction s as [|x s IH]; simpl; [discriminate|].
  destruct (p x) eqn:E; [exact IH|].
  intros H; injection H as -> _; exact E.
Qed.

Lemma startswith_split (prefix s : str) :
  Str.startswith prefix s = true -> s = prefix ++ skipn (length prefix) s.
Proof.
  revert s; induction prefix as [|p prefix IH]; intros s H; [reflexivity|].
  destruct s as [|c s]; simpl in H; [discriminate|].
  apply andb_true_iff in H as [Hc Hs].
  apply N.eqb_eq in Hc; subst c; simpl.
  f_equal; now apply IH.
Qed.

Lemma startswith_app (prefix s : str) :
  Str.startswith prefix (prefix ++ s) = true.
Proof.
  induction prefix as [|p prefix IH]; simpl; [reflexivity|].
  now rewrite N.eqb_refl.
Qed.

(** Whitespace at the right end of a text does not change whether it
    starts with a prefix free of whitespace. *)
Lemma startswith_app_space (prefix s ws : str) :
  forallb isspace ws = true ->
  forallb (fun c => negb (isspace c)) prefix = true ->
  Str.startswith prefix (s ++ ws) = Str.startswith prefix s.
Proof.
  intros Hws; revert s.
  induction prefix as [|p prefix IH]; intros s Hp; [reflexivity|].
  simpl in Hp; apply andb_true_iff in Hp as [Hp1 Hp2].
  destruct s as [|c s]; simpl.
  - destruct ws as [|w ws]; [reflexivity|].
    simpl in Hws; apply andb_true_iff in Hws as [Hw _].
    destruct (N.eqb_spec p w) as [->|_]; [|reflexivity].
    rewrite Hw in Hp1; discriminate.
  - now rewrite IH.
Qed.

Lemma rstrip_decompose (s : str) :
  exists ws, s = Str.rstrip s ++ ws /\ forallb isspace ws = true.
Proof.
  unfold Str.rstrip, Str.lstrip.
  exists (rev (take_while isspace (rev s))); split.
  - rewrite <- rev_app_distr, take_drop_while, rev_involutive; reflexivity.
  - rewrite forallb_forall; intros c Hc.
    apply in_rev in Hc.
    pose proof (take_while_all isspace (rev s)) as H.
    rewrite forallb_forall in H; now apply H.
Qed.

Lemma startswith_rstrip (prefix s : str) :
  forallb (fun c => negb (isspace c)) prefix = true ->
  Str.startswith prefix (Str.rstrip s) = Str.startswith prefix s.
Proof.
  intros Hp.
  destruct (rstrip_decompose s) as [ws [Hs Hws]].
  rewrite Hs at 2.
  symmetry; now apply startswith_app_space.
Qed.

(** The last character of a right-stripped text is no whitespace. *)
Lemma rstrip_last (s l : str) (c : char) :
  Str.rstrip s = l ++ [c] -> isspace c = false.
Proof.
  unfold Str.rstrip, Str.lstrip; intros H.
  apply (f_equal (@rev char)) in H.
  rewrite rev_involutive, rev_app_distr in H; simpl in H.
  now apply drop_while_head in H.
Qed.

(** ** The split on bold spans *)

Lemma match_bold_sound (s g rest : str) :
  Re.match_bold s = Some (g, rest) ->
  s = [STAR; STAR] ++ g ++ [STAR; STAR] ++ rest /\
  g <> [] /\ forallb Re.not_star g = true.
Proof.
  unfold Re.match_bold.
  destruct s as [|c1 [|c2 t]]; try discriminate.
  destruct (N.eqb_spec c1 STAR) as [->|]; [|discriminate].
  destruct (N.eqb_spec c2 STAR) as [->|]; [|discriminate].
  cbn [andb].
  pose proof (take_drop_while Re.not_star t) as Ht.
  pose proof (take_while_all Re.not_star t) as Hg.
  destruct (take_while Re.not_star t) as [|x g'] eqn:Eg; [discriminate|].
  destruct (Str.startswith [STAR; STAR] (drop_while Re.not_star t)) eqn:Ed;
    [|discriminate].
  intros H; injection H as <- <-.
  apply startswith_split in Ed.
  repeat split; [|discriminate|exact Hg].
  rewrite <- Ht at 1; rewrite Ed at 1.
  reflexivity.
Qed.

Lemma match_bold_shorter (s g rest : str) :
  Re.match_bold s = Some (g, rest) -> length rest < length s.
Proof.
  intros H; apply match_bold_sound in H as (-> & _ & _).
  rewrite !length_app; simpl; lia.
Qed.

Lemma unsplit_cons2 (p g : str) (rest : list str) :
  unsplit (p :: g :: rest) = p ++ [STAR; STAR] ++ g ++ [STAR; STAR] ++ unsplit rest.
Proof. reflexivity. Qed.

(** Putting the stars back around the groups gives the text that was
    split: nothing is lost and the order is kept. *)
Lemma split_from_unsplit (fuel : nat) :
  forall acc s, unsplit (Re.split_from fuel acc s) = rev acc ++ s.
Proof.
  induction fuel as [|fuel IH]; intros acc s; [reflexivity|].
  cbn [Re.split_from].
  destruct (Re.match_bold s) as [[g rest]|] eqn:M.
  - rewrite unsplit_cons2, IH.
    apply match_bold_sound in M as (-> & _ & _); reflexivity.
  - destruct s as [|c s]; [simpl; now rewrite app_nil_r|].
    rewrite IH; simpl; now rewrite <- app_assoc.
Qed.

Lemma take_while_app_stop {A : Type} (p : A -> bool) (g : list A) (x : A)
    (r : list A) :
  forallb p g = true -> p x = false -> take_while p (g ++ x :: r) = g.
Proof.
  intros Hg Hx; induction g as [|c g IH]; simpl.
  - now rewrite Hx.
  - simpl in Hg; apply andb_true_iff in Hg as [Hc Hg].
    now rewrite Hc, IH.
Qed.

Lemma drop_while_app_stop {A : Type} (p : A -> bool) (g : list A) (x : A)
    (r : list A) :
  forallb p g = true -> p x = false -> drop_while p (g ++ x :: r) = x :: r.
Proof.
  intros Hg Hx; induction g as [|c g IH]; simpl.
  - now rewrite Hx.
  - simpl in Hg; apply andb_true_iff in Hg as [Hc Hg].
    now rewrite Hc, IH.
Qed.

(** The attempt succeeds on every text that starts with a bold span, and
    finds that span: the group of the regular expression is determined by
    the text. *)
Lemma match_bold_complete (g rest : str) :
  g <> [] -> forallb Re.not_star g = true ->
  Re.match_bold ([STAR; STAR] ++ g ++ [STAR; STAR] ++ rest) = Some (g, rest).
Proof.
  intros Hne Hg; cbn [app Re.match_bold].
  rewrite N.eqb_refl; cbn [andb].
  rewrite take_while_app_stop, drop_while_app_stop by (exact Hg || reflexivity).
  destruct g as [|c g]; [congruence | reflexivity].
Qed.

Lemma skipn_length_app {A : Type} (l r : list A) :
  skipn (length l) (l ++ r) = r.
Proof. induction l as [|x l IH]; simpl; [reflexivity | exact IH]. Qed.

Lemma match_bold_nil_after (s : str) (k : nat) :
  length s <= k -> Re.match_bold (skipn k s) = None.
Proof. intros H; now rewrite skipn_all2. Qed.

(** The split of the source is the split on the bold spans. *)
Lemma split_from_splits (fuel : nat) :
  forall acc s,
    length s < fuel ->
    (forall k, k < length acc -> Re.match_bold (skipn k (rev acc ++ s)) = None) ->
    splits (rev acc ++ s) (Re.split_from fuel acc s).
Proof.
  induction fuel as [|fuel IH]; intros acc s Hf Hacc; [lia|].
  cbn [Re.split_from].
  destruct (Re.match_bold s) as [[g rest]|] eqn:M.
  - pose proof (match_bold_shorter _ M) as Hlt.
    apply match_bold_sound in M as (-> & Hg & Hs).
    apply splits_span; try assumption.
    + intros k Hk; apply Hacc; now rewrite length_rev in Hk.
    + apply (IH [] rest); [lia | simpl; intros k Hk; lia].
  - destruct s as [|c s].
    + rewrite app_nil_r in *; apply splits_end; intros k.
      destruct (Nat.lt_ge_cases k (length acc)) as [Hk|Hk]; [now apply Hacc|].
      apply match_bold_nil_after; now rewrite length_rev.
    + replace (rev acc ++ c :: s) with (rev (c :: acc) ++ s)
        by (simpl; now rewrite <- app_assoc).
      apply IH; [simpl in Hf; lia|].
      intros k Hk; simpl in Hk.
      replace (rev (c :: acc) ++ s) with (rev acc ++ c :: s)
        by (simpl; now rewrite <- app_assoc).
      destruct (Nat.eq_dec k (length acc)) as [->|Hne]; [|apply Hacc; lia].
      rewrite <- length_rev, skipn_length_app; exact M.
Qed.

Lemma split_splits (s : str) : splits s (Re.split s).
Proof.
  apply (@split_from_splits (S (length s)) [] s); [lia|].
  simpl; intros k Hk; lia.
Qed.

(** The rounds [split] allows are enough: more of them change nothing. *)
Lemma split_from_fuel (fuel : nat) :
  forall fuel' acc s,
    length s < fuel -> length s < fuel' ->
    Re.split_from fuel acc s = Re.split_from fuel' acc s.
Proof.
  induction fuel as [|fuel IH]; intros fuel' acc s H H'; [lia|].
  destruct fuel' as [|fuel']; [lia|].
  cbn [Re.split_from].
  destruct (Re.match_bold s) as [[g rest]|] eqn:M.
  - apply match_bold_shorter in M.
    do 2 f_equal; apply IH; lia.
  - destruct s as [|c s]; [reflexivity|].
    simpl in H, H'; apply IH; lia.
Qed.

(** ** The runs of the inline-bold rule *)

Lemma nth_error_enumerate_from {A : Type} (l : list A) :
  forall k j,
    nth_error (enumerate_from k l) j =
    option_map (fun x => (k + j, x)) (nth_error l j).
Proof.
  induction l as [|x l IH]; intros k j.
  - destruct j; reflexivity.
  - destruct j as [|j]; simpl.
    + now rewrite Nat.add_0_r.
    + rewrite IH; simpl; now rewrite Nat.add_succ_r.
Qed.

Lemma length_enumerate_from {A : Type} (l : list A) :
  forall k, length (enumerate_from k l) = length l.
Proof. induction l as [|x l IH]; intros k; simpl; [|rewrite IH]; reflexivity. Qed.

Lemma mod2_odd (j : nat) : Nat.eqb (j mod 2) 1 = Nat.odd j.
Proof. now rewrite <- Nat.bit0_eqb, Nat.bit0_odd. Qed.

Lemma bold_runs_nth (parts : list str) (j : nat) (part : str) :
  nth_error parts j = Some part ->
  nth_error (bold_runs parts) j =
  Some (mk_run part (Nat.odd j) false None (Some 139700%N) None).
Proof.
  intros H; unfold bold_runs, enumerate.
  rewrite nth_error_map, nth_error_enumerate_from, H.
  cbn [option_map fst snd Nat.add].
  rewrite mod2_odd; destruct (Nat.odd j); reflexivity.
Qed.

Lemma bold_runs_length (parts : list str) :
  length (bold_runs parts) = length parts.
Proof.
  unfold bold_runs, enumerate; now rewrite length_map, length_enumerate_from.
Qed.

Lemma fold_add_run (rs : list run) :
  forall p,
    fold_left add_run rs p =
    mk_paragraph (par_style p) (left_indent p) (space_before p) (space_after p)
      (runs p ++ rs).
Proof.
  induction rs as [|r rs IH]; intros p; simpl.
  - destruct p; simpl; now rewrite app_nil_r.
  - rewrite IH; simpl; now rewrite <- app_assoc.
Qed.

(** ** Rows of a table *)

Lemma update_at_middle {A : Type} (f : A -> A) (done : list A) (x : A)
    (rest : list A) :
  update_at (length done) f (done ++ x :: rest) = Ok (done ++ f x :: rest).
Proof.
  induction done as [|d done IH]; simpl; [reflexivity|].
  now rewrite IH.
Qed.

(** Filling a row of as many new cells as there are texts meets no index
    out of range and sets every cell. *)
Lemma fill_cells_from (after : cell -> cell) (cells : list str) :
  forall done,
    fill_cells after (enumerate_from (length done) cells)
      (done ++ repeat empty_cell (length cells)) =
    Ok (done ++ map (fun text => after (cell_with_text text)) cells).
Proof.
  induction cells as [|text cells IH]; intros done; [reflexivity|].
  cbn [enumerate_from length repeat fill_cells map].
  rewrite update_at_middle; cbn [bind].
  specialize (IH (done ++ [after (cell_with_text text)])).
  rewrite length_app, Nat.add_1_r, <- !app_assoc in IH.
  exact IH.
Qed.

Lemma fill_cells_all (after : cell -> cell) (cells : list str) :
  fill_cells after (enumerate cells) (repeat empty_cell (length cells)) =
  Ok (map (fun text => after (cell_with_text text)) cells).
Proof. exact (fill_cells_from after cells []). Qed.

Lemma add_row_matching (t : table) (cells : list str) :
  length cells = table_cols t ->
  add_row t cells =
  Ok (mk_table (table_style t) (table_cols t)
        (table_rows t ++ [map data_cell cells])).
Proof.
  intros H; unfold add_row.
  rewrite <- H, fill_cells_all; reflexivity.
Qed.

Lemma add_data_rows_spec (num_cols : nat) (rest : list str) :
  forall t j,
    table_cols t = num_cols ->
    add_data_rows num_cols rest t j =
    Ok (mk_table (table_style t) (table_cols t)
          (table_rows t ++ data_rows num_cols rest),
        j + length (take_while has_pipe rest)).
Proof.
  unfold data_rows.
  induction rest as [|l rest IH]; intros t j Ht.
  - simpl; rewrite app_nil_r, Nat.add_0_r; destruct t; reflexivity.
  - cbn [add_data_rows take_while]; unfold has_pipe at 1 3.
    destruct (Str.contains (u "|") l).
    + cbn [map filter length].
      destruct (Nat.eqb_spec (length (cells_of l)) num_cols) as [E|E].
      * rewrite add_row_matching by congruence; cbn [bind].
        rewrite IH by exact Ht.
        cbn [table_style table_cols table_rows map].
        rewrite <- app_assoc, Nat.add_succ_r; reflexivity.
      * cbn [bind]; rewrite IH by exact Ht.
        now rewrite Nat.add_succ_r.
    + simpl; rewrite app_nil_r, Nat.add_0_r; destruct t; reflexivity.
Qed.

Lemma take_while_length {A : Type} (p : A -> bool) (s : list A) :
  length (take_while p s) <= length s.
Proof.
  induction s as [|c s IH]; simpl; [lia|].
  destruct (p c); simpl; lia.
Qed.

(** The element right after the longest prefix satisfying [p] does not
    satisfy it. *)
Lemma take_while_stop {A : Type} (p : A -> bool) (s : list A) (x : A) :
  nth_error s (length (take_while p s)) = Some x -> p x = false.
Proof.
  induction s as [|c s IH]; simpl; [discriminate|].
  destruct (p c) eqn:E; simpl; [exact IH|].
  intros H; injection H as <-; exact E.
Qed.

Lemma table_rule_spec (lines : list str) (st : state) (cells : list str) :
  table_rule lines st cells =
  Ok (mk_state (i st + 2 + length (take_while has_pipe (skipn (i st + 2) lines)))
        (in_code_block st) (code_lines st)
        (doc st ++
         [Tbl (mk_table (Some (u "Light Grid Accent 1")) (length cells)
                 (map header_cell cells ::
                  data_rows (length cells) (skipn (i st + 2) lines)))])).
Proof.
  unfold table_rule.
  rewrite fill_cells_all; cbn [bind].
  rewrite add_data_rows_spec by reflexivity; reflexivity.
Qed.

(** ** Classification *)

Ltac chain H :=
  unfold classify in H;
  repeat match type of H with
         | (if ?c then _ else _) = _ => destruct c eqn:?; try discriminate H
         | match ?c with _ => _ end = _ => destruct c eqn:?; try discriminate H
         end.

(** A line starting with three hyphens is a horizontal rule: it starts
    with none of the prefixes tested before. *)
Lemma classify_rule (line : str) :
  Str.startswith (u "---") line = true -> classify line = Rule.
Proof.
  intros H; apply startswith_split in H; rewrite H; reflexivity.
Qed.

Lemma classify_fence (line : str) :
  Str.startswith (u "```") line = true -> classify line = Fence.
Proof. intros H; unfold classify; now rewrite H. Qed.

Lemma classify_not_fence (line : str) :
  Str.startswith (u "```") line = false -> classify line <> Fence.
Proof.
  intros H E; unfold classify in E; rewrite H in E.
  chain E.
Qed.

(** The fence prefix holds no whitespace, so the test of the source on the
    right-stripped line is a test on the line as read. *)
Lemma fence_rstrip (raw : str) :
  Str.startswith (u "```") (Str.rstrip raw) = Str.startswith (u "```") raw.
Proof. now apply startswith_rstrip. Qed.

Lemma rule_rstrip (raw : str) :
  Str.startswith (u "---") (Str.rstrip raw) = Str.startswith (u "---") raw.
Proof. now apply startswith_rstrip. Qed.

(** What it takes to reach the inline-bold rule. *)
Lemma classify_bold (line : str) :
  classify line = Bold <->
  Str.startswith (u "```") line = false /\
  Str.startswith (u "# ") line = false /\
  Str.startswith (u "## ") line = false /\
  Str.startswith (u "### ") line = false /\
  Str.startswith (u "#### ") line = false /\
  Str.startswith (u "---") line = false /\
  Str.startswith (u "- ") line = false /\
  Str.startswith (u "* ") line = false /\
  Re.match_ordered line = false /\
  Str.contains (u "**") line = true.
Proof.
  split.
  - intros H; chain H.
    match goal with
    | E : _ || _ = false |- _ => apply orb_false_iff in E as [? ?]
    end.
    repeat split; assumption.
  - intros (H1 & H2 & H3 & H4 & H5 & H6 & H7 & H8 & H9 & H10).
    unfold classify.
    now rewrite H1, H2, H3, H4, H5, H6, H7, H8, H9, H10.
Qed.

(** What it takes to reach the table rule. *)
Lemma classify_pipe (line : str) :
  classify line = Pipe <->
  Str.startswith (u "```") line = false /\
  Str.startswith (u "# ") line = false /\
  Str.startswith (u "## ") line = false /\
  Str.startswith (u "### ") line = false /\
  Str.startswith (u "#### ") line = false /\
  Str.startswith (u "---") line = false /\
  Str.startswith (u "- ") line = false /\
  Str.startswith (u "* ") line = false /\
  Re.match_ordered line = false /\
  Str.contains (u "**") line = false /\
  Str.contains (u "|") line = true /\
  Str.startswith (u "|---") line = false.
Proof.
  split.
  - intros H; chain H.
    match goal with
    | E : _ || _ = false |- _ => apply orb_false_iff in E as [? ?]
    end.
    match goal with
    | E : _ && _ = true |- _ => apply andb_true_iff in E as [? E2];
                                apply negb_true_iff in E2
    end.
    repeat split; assumption.
  - intros (H1 & H2 & H3 & H4 & H5 & H6 & H7 & H8 & H9 & H10 & H11 & H12).
    unfold classify.
    now rewrite H1, H2, H3, H4, H5, H6, H7, H8, H9, H10, H11, H12.
Qed.

(** A heading has a text: the right-stripped line does not end with the
    space of its prefix.  So [heading.runs[0]] exists. *)
Lemma heading_text (raw : str) (level : nat) :
  classify (Str.rstrip raw) = Heading level ->
  skipn (S level) (Str.rstrip raw) <> [].
Proof.
  intros H.
  assert (Hlast : forall l c, Str.rstrip raw = l ++ [c] -> isspace c = false)
    by (intros l c; apply rstrip_last).
  destruct (Str.rstrip raw) as [|c1 line]; [discriminate H|].
  chain H; injection H as <-;
    match goal with
    | E : Str.startswith _ _ = true |- _ =>
        apply startswith_split in E; cbn [u length skipn app] in E;
        rewrite E in *; clear E
    end; cbn [skipn]; intros E; rewrite E in Hlast.
  - specialize (Hlast [N_of_ascii "#"] 32%N eq_refl); discriminate.
  - specialize (Hlast (u "##") 32%N eq_refl); discriminate.
  - specialize (Hlast (u "###") 32%N eq_refl); discriminate.
  - specialize (Hlast (u "####") 32%N eq_refl); discriminate.
Qed.

Lemma classify_heading_level (line : str) (level : nat) :
  classify line = Heading level -> 1 <= level <= 4.
Proof. intros H; chain H; injection H as <-; lia. Qed.

Lemma add_heading_ok (d : document) (text : str) (level : nat) :
  text <> [] -> level <= 9 ->
  exists p, add_heading d text level = Ok (d ++ [Par p]).
Proof.
  intros H L; destruct text as [|c text]; [congruence|].
  unfold add_heading, heading_paragraph.
  apply Nat.ltb_ge in L; rewrite L; cbn [bind].
  destruct (level =? 1); [|destruct (level =? 2)]; eexists; reflexivity.
Qed.

Lemma heading_level_allowed (line : str) (level : nat) :
  classify line = Heading level -> level <= 9.
Proof. intros H; apply classify_heading_level in H; lia. Qed.

(** ** The loop *)

Lemma index_nth {A : Type} (l : list A) (j : nat) (x : A) :
  nth_error l j = Some x -> index l j = Ok x.
Proof. unfold index; now intros ->. Qed.

Lemma separator_follows_lt (lines : list str) (j : nat) :
  separator_follows lines j = true -> S j < length lines.
Proof.
  unfold separator_follows.
  destruct (nth_error lines (S j)) eqn:E; [|discriminate].
  intros _; apply nth_error_Some; congruence.
Qed.

Lemma consumed_bound (lines : list str) (j : nat) :
  S j < length lines ->
  j + 2 + length (take_while has_pipe (skipn (j + 2) lines)) <= length lines.
Proof.
  intros H.
  pose proof (take_while_length has_pipe (skipn (j + 2) lines)) as L.
  rewrite length_skipn in L; lia.
Qed.

(** No iteration raises, and every iteration moves to a later line without
    leaving the input. *)
Lemma body_ok (lines : list str) (st : state) :
  i st < length lines ->
  exists st', body lines st = Ok st' /\ i st < i st' <= length lines.
Proof.
  intros Hi; unfold body.
  destruct (nth_error lines (i st)) as [raw|] eqn:E;
    [|apply nth_error_None in E; lia].
  rewrite (index_nth _ _ E); cbn [bind].
  destruct (classify (Str.rstrip raw)) eqn:K; destruct (in_code_block st);
    try (eexists; split; [reflexivity | simpl; lia]).
  - destruct (add_heading_ok (doc st) (heading_text raw K)
                (heading_level_allowed _ K)) as [p ->].
    eexists; split; [reflexivity | simpl; lia].
  - destruct (cells_of (Str.rstrip raw)) as [|c cells];
      [eexists; split; [reflexivity | simpl; lia]|].
    destruct (separator_follows lines (i st)) eqn:S;
      [|eexists; split; [reflexivity | simpl; lia]].
    rewrite table_rule_spec.
    eexists; split; [reflexivity|].
    apply separator_follows_lt in S.
    pose proof (consumed_bound lines S); simpl; lia.
Qed.

Lemma loop_step (fuel : nat) (lines : list str) (st : state) :
  i st < length lines ->
  loop (S fuel) lines st = (st' <- body lines st ;; loop fuel lines st').
Proof.
  intros H; cbn [loop].
  apply Nat.ltb_lt in H; now rewrite H.
Qed.

Lemma loop_done (fuel : nat) (lines : list str) (st : state) :
  length lines <= i st -> loop fuel lines st = Ok st.
Proof.
  intros H; destruct fuel; [reflexivity|]; cbn [loop].
  apply Nat.ltb_ge in H; now rewrite H.
Qed.

(** The iterations the loop is given are enough: it ends with [i] at the
    end of the input, the test of the [while] false. *)
Lemma loop_exits (fuel : nat) (lines : list str) :
  forall st,
    length lines - i st <= fuel ->
    exists st', loop fuel lines st = Ok st' /\ length lines <= i st'.
Proof.
  induction fuel as [|fuel IH]; intros st H.
  - exists st; split; [reflexivity | lia].
  - destruct (Nat.lt_ge_cases (i st) (length lines)) as [Hi|Hi].
    + rewrite loop_step by exact Hi.
      destruct (body_ok lines st Hi) as (st1 & -> & Hlt); cbn [bind].
      apply IH; lia.
    + exists st; split; [now apply loop_done | exact Hi].
Qed.

(** More iterations than needed change nothing. *)
Lemma loop_fuel (fuel : nat) (lines : list str) :
  forall fuel' st,
    length lines - i st <= fuel -> length lines - i st <= fuel' ->
    loop fuel lines st = loop fuel' lines st.
Proof.
  induction fuel as [|fuel IH]; intros fuel' st H H'.
  - rewrite !loop_done by lia; reflexivity.
  - destruct (Nat.lt_ge_cases (i st) (length lines)) as [Hi|Hi].
    + destruct fuel' as [|fuel']; [lia|].
      rewrite !loop_step by exact Hi.
      destruct (body_ok lines st Hi) as (st1 & -> & Hlt); cbn [bind].
      apply IH; lia.
    + rewrite !loop_done by lia; reflexivity.
Qed.

(** The loop started in the initial state goes through every reachable
    state. *)
Lemma loop_through (lines : list str) (st : state) :
  reachable lines st ->
  forall fuel, length lines <= fuel ->
    loop fuel lines initial = loop fuel lines st.
Proof.
  induction 1 as [|st st' R IH Hi Hb]; intros fuel Hf; [reflexivity|].
  rewrite IH by exact Hf.
  destruct fuel as [|fuel]; [lia|].
  rewrite loop_step by exact Hi.
  rewrite Hb; cbn [bind].
  destruct (body_ok lines st Hi) as (st1 & Hb1 & Hlt).
  rewrite Hb in Hb1; injection Hb1 as <-.
  apply loop_fuel; lia.
Qed.

Lemma scan_total (lines : list str) : exists d, scan lines = Ok d.
Proof.
  unfold scan.
  destruct (@loop_exits (length lines) lines initial) as (st & -> & _);
    [lia|].
  eexists; reflexivity.
Qed.

(** Outside a fence the buffer of code lines is empty. *)
Lemma buffer_empty (lines : list str) (st : state) :
  reachable lines st -> in_code_block st = false -> code_lines st = [].
Proof.
  induction 1 as [|st st' R IH Hi Hb]; [reflexivity|].
  unfold body in Hb.
  destruct (index lines (i st)) as [raw|]; [|discriminate].
  cbn [bind] in Hb.
  destruct (classify (Str.rstrip raw)) eqn:K;
    destruct (in_code_block st) eqn:F;
    try (injection Hb as <-; simpl; first [discriminate | auto]).
  - destruct (add_heading (doc st) (skipn (S level) (Str.rstrip raw)) level);
      [|discriminate].
    injection Hb as <-; simpl; auto.
  - destruct (cells_of (Str.rstrip raw)) as [|c cells];
      [injection Hb as <-; simpl; auto|].
    destruct (separator_follows lines (i st));
      [|injection Hb as <-; simpl; auto].
    rewrite table_rule_spec in Hb.
    injection Hb as <-; simpl; rewrite F; auto.
Qed.

(** ** The rules on single lines *)

Example heading_title :
  scan [nl "# Title"] =
  Ok [Par (mk_paragraph (Some (u "Heading 1")) None None None
             [mk_run (u "Title") false false None (Some (Pt 18))
                (Some (0, 0, 0)%N)])].
Proof. reflexivity. Qed.

Example heading_sub :
  scan [nl "## Sub"] =
  Ok [Par (mk_paragraph (Some (u "Heading 2")) None None None
             [mk_run (u "Sub") false false None (Some (Pt 14))
                (Some (31, 41, 55)%N)])].
Proof. reflexivity. Qed.

Example list_item :
  scan [nl "- item"] = Ok [text_paragraph (bullet ++ u "item")].
Proof. reflexivity. Qed.

(** A separator line that follows no header is a plain paragraph, and a
    lone "# " is one too: right-stripped, it is "#". *)
Example stray_lines :
  scan [nl "|---|---|"; nl "# "] =
  Ok [text_paragraph (u "|---|---|"); text_paragraph (u "#")].
Proof. reflexivity. Qed.

(** ** Code fences *)

Lemma nth_error_middle {A : Type} (pre : list A) (x : A) (post : list A) :
  nth_error (pre ++ x :: post) (length pre) = Some x.
Proof. induction pre as [|y pre IH]; simpl; [reflexivity | exact IH]. Qed.

Lemma fence_open (lines : list str) (st : state) (raw : str) :
  nth_error lines (i st) = Some raw ->
  Str.startswith (u "```") raw = true ->
  in_code_block st = false ->
  body lines st = Ok (mk_state (S (i st)) true (code_lines st) (doc st)).
Proof.
  intros E H F; unfold body.
  rewrite (index_nth _ _ E); cbn [bind].
  rewrite classify_fence by (now rewrite fence_rstrip).
  now rewrite F.
Qed.

Lemma fence_close (lines : list str) (st : state) (raw : str) :
  nth_error lines (i st) = Some raw ->
  Str.startswith (u "```") raw = true ->
  in_code_block st = true ->
  body lines st =
  Ok (mk_state (S (i st)) false []
        (doc st ++ [code_block (Str.join [LF] (code_lines st))])).
Proof.
  intros E H F; unfold body.
  rewrite (index_nth _ _ E); cbn [bind].
  rewrite classify_fence by (now rewrite fence_rstrip).
  now rewrite F.
Qed.

Lemma fence_inside (lines : list str) (st : state) (raw : str) :
  nth_error lines (i st) = Some raw ->
  Str.startswith (u "```") raw = false ->
  in_code_block st = true ->
  body lines st =
  Ok (mk_state (S (i st)) true (code_lines st ++ [Str.rstrip raw]) (doc st)).
Proof.
  intros E H F; unfold body.
  rewrite (index_nth _ _ E); cbn [bind].
  rewrite <- fence_rstrip in H; apply classify_not_fence in H.
  rewrite F.
  destruct (classify (Str.rstrip raw)); congruence.
Qed.

(** Inside a fence, lines that do not start with a fence are buffered one
    by one and nothing is emitted. *)
Lemma buffer_run (lines Ls : list str) :
  forall pre rest st fuel,
    lines = pre ++ Ls ++ rest ->
    i st = length pre ->
    in_code_block st = true ->
    Forall (fun l => Str.startswith (u "```") l = false) Ls ->
    loop (length Ls + fuel) lines st =
    loop fuel lines
      (mk_state (length pre + length Ls) true
         (code_lines st ++ map Str.rstrip Ls) (doc st)).
Proof.
  induction Ls as [|l Ls IH]; intros pre rest st fuel Hl Hi F HLs.
  - destruct st as [j b cl d]; simpl in *; subst.
    now rewrite app_nil_r, Nat.add_0_r.
  - inversion HLs as [|? ? Hhd Htl]; subst.
    assert (E : nth_error (pre ++ (l :: Ls) ++ rest) (i st) = Some l)
      by (rewrite Hi; apply nth_error_middle).
    cbn [length Nat.add].
    rewrite loop_step
      by (rewrite Hi, !length_app; simpl; lia).
    rewrite (fence_inside _ _ E Hhd F); cbn [bind].
    rewrite (IH (pre ++ [l]) rest); cbn [i in_code_block code_lines doc].
    + rewrite length_app, <- app_assoc; simpl.
      now rewrite <- Nat.add_assoc.
    + now rewrite <- app_assoc.
    + rewrite Hi, length_app; simpl; lia.
    + reflexivity.
    + exact Htl.
Qed.

Lemma loop_reachable (fuel : nat) (lines : list str) :
  forall st st',
    reachable lines st -> loop fuel lines st = Ok st' -> reachable lines st'.
Proof.
  induction fuel as [|fuel IH]; intros st st' R H.
  - injection H as <-; exact R.
  - destruct (Nat.lt_ge_cases (i st) (length lines)) as [Hi|Hi].
    + rewrite loop_step in H by exact Hi.
      destruct (body_ok lines st Hi) as (st1 & Hb & _).
      rewrite Hb in H; cbn [bind] in H.
      exact (IH _ _ (reach_body R Hi Hb) H).
    + rewrite loop_done in H by exact Hi.
      injection H as <-; exact R.
Qed.

Lemma firstn_snoc {A : Type} (l : list A) (j : nat) (x : A) :
  nth_error l j = Some x -> firstn (S j) l = firstn j l ++ [x].
Proof.
  revert l; induction j as [|j IH]; intros [|y l] H; try discriminate.
  - injection H as ->; reflexivity.
  - simpl in H; rewrite !firstn_cons, (IH _ H); reflexivity.
Qed.

Lemma reachable_bound (lines : list str) (st : state) :
  reachable lines st -> i st <= length lines.
Proof.
  induction 1 as [|st st' R IH Hi Hb]; [simpl; lia|].
  destruct (body_ok lines st Hi) as (st1 & Hb1 & Hlt).
  rewrite Hb in Hb1; injection Hb1 as <-; lia.
Qed.

(** Whenever the flag is set, the lines read so far end with an opening
    fence line, met outside a fence, and the lines buffered since: the
    document has not changed since the opening fence. *)
Lemma inside_fence_origin (lines : list str) (st : state) :
  reachable lines st ->
  in_code_block st = true ->
  exists pre opening Ls st0,
    firstn (i st) lines = pre ++ opening :: Ls /\
    reachable lines st0 /\
    i st0 = length pre /\
    in_code_block st0 = false /\
    Str.startswith (u "```") opening = true /\
    Forall (fun l => Str.startswith (u "```") l = false) Ls /\
    code_lines st = map Str.rstrip Ls /\
    doc st = doc st0.
Proof.
  induction 1 as [|st st' R IH Hi Hb]; [discriminate|].
  intros F'.
  pose proof (reachable_bound R) as Hbound.
  unfold body in Hb.
  destruct (nth_error lines (i st)) as [raw|] eqn:E;
    [|apply nth_error_None in E; lia].
  rewrite (index_nth _ _ E) in Hb; cbn [bind] in Hb.
  destruct (in_code_block st) eqn:F.
  - destruct (IH eq_refl)
      as (pre & opening & Ls & st0 & Hf & R0 & Hi0 & F0 & Ho & HLs & Hc & Hd).
    destruct (Str.startswith (u "```") raw) eqn:Hraw.
    + rewrite classify_fence in Hb by (now rewrite fence_rstrip).
      injection Hb as <-; discriminate F'.
    + exists pre, opening, (Ls ++ [raw]), st0.
      assert (Hb' : st' = mk_state (S (i st)) true
                            (code_lines st ++ [Str.rstrip raw]) (doc st)).
      { pose proof (classify_not_fence _ (eq_trans (fence_rstrip raw) Hraw)).
        destruct (classify (Str.rstrip raw)); congruence. }
      subst st'; cbn [i code_lines doc].
      repeat split; try assumption.
      * rewrite (firstn_snoc _ _ E), Hf, <- app_assoc; reflexivity.
      * apply Forall_app; split; [exact HLs | now constructor].
      * now rewrite Hc, map_app.
  - destruct (Str.startswith (u "```") raw) eqn:Hraw.
    + rewrite classify_fence in Hb by (now rewrite fence_rstrip).
      injection Hb as <-.
      exists (firstn (i st) lines), raw, [], st; cbn [i code_lines doc map].
      repeat split; try assumption.
      * exact (firstn_snoc _ _ E).
      * rewrite length_firstn; lia.
      * constructor.
      * exact (buffer_empty R F).
    + exfalso.
      pose proof (classify_not_fence _ (eq_trans (fence_rstrip raw) Hraw)).
      destruct (classify (Str.rstrip raw)) eqn:K; [congruence | ..];
        try (injection Hb as <-; simpl in F'; congruence).
      * destruct (add_heading (doc st) (skipn (S level) (Str.rstrip raw)) level);
          [|discriminate].
        injection Hb as <-; simpl in F'; congruence.
      * destruct (cells_of (Str.rstrip raw)) as [|c cells];
          [injection Hb as <-; simpl in F'; congruence|].
        destruct (separator_follows lines (i st));
          [|injection Hb as <-; simpl in F'; congruence].
        rewrite table_rule_spec in Hb.
        injection Hb as <-; simpl in F'; congruence.
Qed.

(** The input ends inside a fence exactly when it ends with an opening
    fence line, met outside a fence, and lines without a fence. *)
Lemma ends_inside_fence (lines : list str) (final : state) :
  loop (length lines) lines initial = Ok final ->
  in_code_block final = true ->
  exists pre opening Ls st0,
    lines = pre ++ opening :: Ls /\
    reachable lines st0 /\
    i st0 = length pre /\
    in_code_block st0 = false /\
    Str.startswith (u "```") opening = true /\
    Forall (fun l => Str.startswith (u "```") l = false) Ls.
Proof.
  intros H F.
  assert (R : reachable lines final)
    by (exact (loop_reachable _ (reach_initial lines) H)).
  destruct (@loop_exits (length lines) lines initial) as (st & Hst & Hge);
    [lia|].
  rewrite H in Hst; injection Hst as <-.
  destruct (inside_fence_origin R F)
    as (pre & opening & Ls & st0 & Hf & R0 & Hi0 & F0 & Ho & HLs & _ & _).
  exists pre, opening, Ls, st0.
  rewrite firstn_all2 in Hf by exact Hge.
  repeat split; assumption.
Qed.

(** C9.  At the start of every iteration of the scanner's loop, that is in
    every state the loop reaches on an input, the flag [in_code_block] and
    the buffer [code_lines] agree: the buffer holds lines only while the
    flag is set.  The closing fence empties the buffer in the iteration that
    clears the flag. *)
Theorem fence_flag_consistent (lines : list str) (st : state) :
  reachable lines st -> code_lines st <> [] -> in_code_block st = true.
Proof.
  intros R Hne.
  destruct (in_code_block st) eqn:F; [reflexivity|].
  exfalso; apply Hne; exact (buffer_empty R F).
Qed.

Lemma fence_flag_consistent_witness :
  in_code_block (mk_state 2 true [u "x = 1"] []) = true.
Proof.
  apply (@fence_flag_consistent [nl "```"; nl "x = 1"]).
  - apply reach_body with (st := mk_state 1 true [] []).
    + apply reach_body with (st := initial).
      * apply reach_initial.
      * simpl; lia.
      * reflexivity.
    + simpl; lia.
    + reflexivity.
  - discriminate.
Defined.

(** C3.  An opening fence line met outside a fence, the lines [Ls] after
    it of which none starts with three backticks, and a closing fence line:
    the iterations over these lines append exactly one element to the
    document, the code block whose content is the lines of [Ls], each
    right-stripped, joined by line feeds; no paragraph is emitted for a line
    of [Ls], and flag and buffer are cleared by the closing line. *)
Theorem fenced_block_one_code_block
    (lines pre Ls post : list str) (opening closing : str) (st : state) :
  lines = pre ++ opening :: Ls ++ closing :: post ->
  reachable lines st ->
  i st = length pre ->
  in_code_block st = false ->
  Str.startswith (u "```") opening = true ->
  Forall (fun l => Str.startswith (u "```") l = false) Ls ->
  Str.startswith (u "```") closing = true ->
  loop (length Ls + 2) lines st =
  Ok (mk_state (length pre + length Ls + 2) false []
        (doc st ++ [code_block (Str.join [LF] (map Str.rstrip Ls))])).
Proof.
  intros Hl R Hi F Hopen HLs Hclose.
  pose proof (buffer_empty R F) as Hbuf.
  assert (Eo : nth_error lines (i st) = Some opening)
    by (rewrite Hl, Hi; apply nth_error_middle).
  assert (Hlen : length lines = length pre + length Ls + 2 + length post)
    by (rewrite Hl, length_app; simpl; rewrite length_app; simpl; lia).
  rewrite Nat.add_succ_r.
  rewrite loop_step by lia.
  rewrite (fence_open _ _ Eo Hopen F); cbn [bind].
  rewrite (@buffer_run lines Ls (pre ++ [opening]) (closing :: post));
    cbn [i in_code_block code_lines doc].
  - rewrite Hbuf; cbn [app].
    assert (Ec : nth_error lines (length (pre ++ [opening]) + length Ls)
                 = Some closing).
    { rewrite Hl.
      replace (pre ++ opening :: Ls ++ closing :: post)
        with (((pre ++ [opening]) ++ Ls) ++ closing :: post)
        by (rewrite <- !app_assoc; reflexivity).
      rewrite <- length_app; apply nth_error_middle. }
    rewrite loop_step
      by (cbn [i]; rewrite length_app; simpl; lia).
    erewrite fence_close by (cbn [i]; eauto).
    cbn [bind loop i code_lines doc].
    rewrite length_app; simpl.
    do 2 f_equal; lia.
  - rewrite Hl, <- app_assoc; reflexivity.
  - rewrite Hi, length_app; simpl; lia.
  - reflexivity.
  - exact HLs.
Qed.

Lemma fenced_block_one_code_block_witness :
  scan [nl "```"; nl "line1"; nl "line2"; nl "```"] =
  Ok [code_block (u "line1" ++ [LF] ++ u "line2")].
Proof.
  pose proof
    (@fenced_block_one_code_block
       [nl "```"; nl "line1"; nl "line2"; nl "```"]
       [] [nl "line1"; nl "line2"] [] (nl "```") (nl "```") initial
       eq_refl (reach_initial _) eq_refl eq_refl eq_refl) as H.
  unfold scan.
  change (length [nl "```"; nl "line1"; nl "line2"; nl "```"])
    with (length [nl "line1"; nl "line2"] + 2).
  rewrite H; [reflexivity | repeat constructor | reflexivity].
Defined.

(** C10.  The input ends inside a fence: after an opening fence line met
    outside a fence, no line up to the end of the input starts with three
    backticks.  The loop ends with the flag still set and the lines after
    the opening fence in the buffer; the document is the one built before
    the opening fence, with no code block and no paragraph for the buffered
    lines; no exception is raised by the scan, the document goes to
    [doc.save], and when that succeeds the run ends with its confirmation
    message. *)
Theorem unterminated_fence_discarded
    (content : Type) (readlines : content -> result (list str))
    (save : document -> path -> (path -> option content) ->
            (path -> option content) * result unit)
    (md_file docx_file : path) (w : world content)
    (lines pre Ls : list str) (opening : str) (st : state) :
  open_readlines readlines w md_file = Ok lines ->
  lines = pre ++ opening :: Ls ->
  reachable lines st ->
  i st = length pre ->
  in_code_block st = false ->
  Str.startswith (u "```") opening = true ->
  Forall (fun l => Str.startswith (u "```") l = false) Ls ->
  loop (length lines) lines initial =
    Ok (mk_state (length lines) true (map Str.rstrip Ls) (doc st)) /\
  scan lines = Ok (doc st) /\
  forall fs,
    save (doc st) docx_file (files w) = (fs, Ok tt) ->
    parse_markdown_to_docx readlines save md_file docx_file w =
    (print (converted md_file docx_file) (mk_world fs (stdout w)), Ok tt).
Proof.
  intros Hopen Hl R Hi F Hfence HLs.
  assert (Hloop : loop (length lines) lines initial =
                  Ok (mk_state (length lines) true (map Str.rstrip Ls) (doc st))).
  { pose proof (buffer_empty R F) as Hbuf.
    assert (Eo : nth_error lines (i st) = Some opening)
      by (rewrite Hl, Hi; apply nth_error_middle).
    assert (Hlen : length lines = length pre + S (length Ls))
      by (rewrite Hl, length_app; reflexivity).
    rewrite (loop_through R) by lia.
    rewrite (@loop_fuel (length lines) lines (S (length Ls + 0)) st) by lia.
    rewrite loop_step by lia.
    rewrite (fence_open _ _ Eo Hfence F); cbn [bind].
    rewrite (@buffer_run lines Ls (pre ++ [opening]) []);
      cbn [i in_code_block code_lines doc loop].
    - rewrite Hbuf, Hlen, length_app; simpl.
      do 2 f_equal; lia.
    - rewrite Hl, app_nil_r, <- app_assoc; reflexivity.
    - rewrite Hi, length_app; simpl; lia.
    - reflexivity.
    - exact HLs. }
  assert (Hscan : scan lines = Ok (doc st))
    by (unfold scan; rewrite Hloop; reflexivity).
  repeat split; [exact Hloop | exact Hscan |].
  intros fs Hsave; unfold parse_markdown_to_docx.
  now rewrite Hopen, Hscan, Hsave.
Qed.

Lemma unterminated_fence_discarded_witness :
  scan [nl "intro"; nl "```"; nl "x = 1"; nl "y = 2"] =
  Ok [text_paragraph (u "intro")].
Proof.
  apply (@unterminated_fence_discarded
           (list str) (fun c => Ok c) (fun _ _ fs => (fs, Ok tt))
           (u "in.md") (u "out.docx")
           (mk_world
              (fun _ => Some [nl "intro"; nl "```"; nl "x = 1"; nl "y = 2"]) [])
           [nl "intro"; nl "```"; nl "x = 1"; nl "y = 2"]
           [nl "intro"] [nl "x = 1"; nl "y = 2"] (nl "```")
           (mk_state 1 false [] [text_paragraph (u "intro")])).
  - reflexivity.
  - reflexivity.
  - apply reach_body with (st := initial).
    + apply reach_initial.
    + simpl; lia.
    + reflexivity.
  - reflexivity.
  - reflexivity.
  - reflexivity.
  - repeat constructor.
Defined.

(** ** Tables *)

Lemma split_nonempty (sep : char) (s : str) : Str.split sep s <> [].
Proof.
  destruct s as [|c s]; simpl; [discriminate|].
  destruct (c =? sep)%N; [discriminate|].
  destruct (Str.split sep s); discriminate.
Qed.

Lemma split_first (a r : str) :
  no_pipe a -> Str.split PIPE (a ++ PIPE :: r) = a :: Str.split PIPE r.
Proof.
  unfold no_pipe; induction a as [|c a IH]; intros H; simpl.
  - reflexivity.
  - simpl in H; apply andb_true_iff in H as [Hc Ha].
    apply negb_true_iff in Hc; rewrite Hc.
    now rewrite IH.
Qed.

Lemma split_none (b : str) : no_pipe b -> Str.split PIPE b = [b].
Proof.
  unfold no_pipe; induction b as [|c b IH]; intros H; simpl; [reflexivity|].
  simpl in H; apply andb_true_iff in H as [Hc Hb].
  apply negb_true_iff in Hc; rewrite Hc.
  now rewrite IH.
Qed.

Lemma split_last (m b : str) :
  no_pipe b ->
  Str.split PIPE (m ++ PIPE :: b) = Str.split PIPE m ++ [b].
Proof.
  intros Hb; induction m as [|c m IH]; simpl.
  - now rewrite split_none.
  - destruct (c =? PIPE)%N; [now rewrite IH|].
    rewrite IH.
    pose proof (@split_nonempty PIPE m) as Hne.
    destruct (Str.split PIPE m); [congruence | reflexivity].
Qed.

(** The cells of a line are the segments between its first and its last
    pipe, each stripped. *)
Lemma cells_between_pipes (a m b : str) :
  no_pipe a -> no_pipe b ->
  cells_of (a ++ PIPE :: m ++ PIPE :: b) = map Str.strip (Str.split PIPE m).
Proof.
  intros Ha Hb; unfold cells_of, slice_1_m1.
  rewrite split_first by exact Ha.
  rewrite split_last by exact Hb.
  cbn [tl]; now rewrite removelast_last.
Qed.

Lemma skipn_nth_error {A : Type} (l : list A) (n k : nat) :
  nth_error (skipn n l) k = nth_error l (n + k).
Proof.
  revert l; induction n as [|n IH]; intros l; [reflexivity|].
  destruct l as [|x l]; simpl; [now destruct k | apply IH].
Qed.

(** C1, as amended.  A line that reaches the table rule (it contains a pipe, does not
    start with "|---" and matches no earlier rule, see [classify_pipe]),
    has a cell between its first and its last pipe and is followed by a
    line starting with "|---": the iteration appends exactly one table.
    Its column count is the number of header cells, its first row holds the
    header texts in bold, and the separator and every line with a pipe
    after it are consumed, the data rows coming from those of them with as
    many cells as the header; the scan goes on at the first line without a
    pipe, or at the end of the input. *)
Theorem table_rule_emits_table
    (lines : list str) (st : state) (raw next : str) :
  nth_error lines (i st) = Some raw ->
  in_code_block st = false ->
  classify (Str.rstrip raw) = Pipe ->
  cells_of (Str.rstrip raw) <> [] ->
  nth_error lines (S (i st)) = Some next ->
  Str.startswith (u "|---") next = true ->
  let cells := cells_of (Str.rstrip raw) in
  let consumed := take_while has_pipe (skipn (i st + 2) lines) in
  let stop := i st + 2 + length consumed in
  body lines st =
    Ok (mk_state stop false (code_lines st)
          (doc st ++
           [Tbl (mk_table (Some (u "Light Grid Accent 1")) (length cells)
                   (map header_cell cells ::
                    map (map data_cell)
                      (filter (fun row => length row =? length cells)
                         (map cells_of consumed))))])) /\
  stop <= length lines /\
  forall l, nth_error lines stop = Some l -> has_pipe l = false.
Proof.
  intros E F K Hcells En Hsep cells consumed stop.
  subst cells consumed stop.
  assert (S : separator_follows lines (i st) = true)
    by (unfold separator_follows; now rewrite En).
  repeat split.
  - unfold body.
    rewrite (index_nth _ _ E); cbn [bind].
    rewrite K, F.
    destruct (cells_of (Str.rstrip raw)) as [|c cs] eqn:Ec; [congruence|].
    rewrite S, table_rule_spec, F; reflexivity.
  - apply consumed_bound; now apply separator_follows_lt.
  - intros l Hl.
    rewrite <- skipn_nth_error in Hl.
    exact (take_while_stop _ _ Hl).
Qed.

Lemma table_rule_emits_table_witness :
  scan [nl "| A | B |"; nl "|---|---|"; nl "| 1 | 2 |"] =
  Ok [Tbl (mk_table (Some (u "Light Grid Accent 1")) 2
             [ [header_cell (u "A"); header_cell (u "B")];
               [data_cell (u "1"); data_cell (u "2")] ])].
Proof.
  unfold scan; cbn [length].
  rewrite loop_step by (simpl; lia).
  rewrite (proj1 (@table_rule_emits_table
                    [nl "| A | B |"; nl "|---|---|"; nl "| 1 | 2 |"] initial
                    (nl "| A | B |") (nl "|---|---|")
                    eq_refl eq_refl eq_refl ltac:(discriminate)
                    eq_refl eq_refl)).
  reflexivity.
Defined.

(** C1, as stated, fails: it names no condition on the rules tested
    before the table rule.  The header "| **Name** | Value |" holds a pipe,
    does not start with "|---", has two cells and is followed by a
    separator line, and it is taken by the inline-bold rule: the iteration
    emits a paragraph and no table. *)
Lemma bold_header_is_no_table :
  ~ (forall (lines : list str) (st : state) (raw next : str),
       nth_error lines (i st) = Some raw ->
       Str.contains (u "|") raw = true ->
       Str.startswith (u "|---") raw = false ->
       cells_of (Str.rstrip raw) <> [] ->
       nth_error lines (S (i st)) = Some next ->
       Str.startswith (u "|---") next = true ->
       exists st' t,
         body lines st = Ok st' /\ doc st' = doc st ++ [Tbl t]).
Proof.
  intros H.
  destruct (H [nl "| **Name** | Value |"; nl "|---|---|"] initial
              (nl "| **Name** | Value |") (nl "|---|---|")
              eq_refl eq_refl eq_refl ltac:(discriminate) eq_refl eq_refl)
    as (st' & t & Hb & Hd).
  assert (E : body [nl "| **Name** | Value |"; nl "|---|---|"] initial =
              Ok (mk_state 1 false []
                    [Par (plain_paragraph
                            [ mk_run (u "| ") false false None (Some (Pt 11)) None;
                              mk_run (u "Name") true false None (Some (Pt 11)) None;
                              mk_run (u " | Value |") false false None
                                (Some (Pt 11)) None ])]))
    by reflexivity.
  rewrite E in Hb; injection Hb as <-.
  discriminate Hd.
Qed.

(** C4.  While the inner loop of the table rule consumes the lines with a
    pipe, a line whose cell count differs from the column count is passed
    over: the table is left as it is, no exception is raised and the loop
    goes on with the next line.  The table the loop returns keeps the rows
    it had (the header) and gains, in order, the rows of the consumed lines
    whose cell count matches. *)
Theorem mismatched_row_skipped
    (num_cols : nat) (t : table) (j : nat) (rest : list str) :
  table_cols t = num_cols ->
  (forall l rest',
     has_pipe l = true -> length (cells_of l) <> num_cols ->
     add_data_rows num_cols (l :: rest') t j =
     add_data_rows num_cols rest' t (S j)) /\
  add_data_rows num_cols rest t j =
    Ok (mk_table (table_style t) (table_cols t)
          (table_rows t ++
           map (map data_cell)
             (filter (fun row => length row =? num_cols)
                (map cells_of (take_while has_pipe rest)))),
        j + length (take_while has_pipe rest)) /\
  (forall row, In row (data_rows num_cols rest) ->
     exists l, In l (take_while has_pipe rest) /\
               length (cells_of l) = num_cols /\
               row = map data_cell (cells_of l)) /\
  (forall l, In l (take_while has_pipe rest) ->
     length (cells_of l) = num_cols ->
     In (map data_cell (cells_of l)) (data_rows num_cols rest)).
Proof.
  intros Ht; repeat split.
  - intros l rest' Hp Hn; cbn [add_data_rows].
    unfold has_pipe in Hp; rewrite Hp.
    apply Nat.eqb_neq in Hn; now rewrite Hn.
  - now apply add_data_rows_spec.
  - intros row Hrow; unfold data_rows in Hrow.
    apply in_map_iff in Hrow as (cells & <- & Hc).
    apply filter_In in Hc as [Hc Hlen].
    apply in_map_iff in Hc as (l & <- & Hl).
    exists l; repeat split; [exact Hl | now apply Nat.eqb_eq].
  - intros l Hl Hlen; unfold data_rows.
    apply in_map, filter_In; split; [now apply in_map|].
    now apply Nat.eqb_eq.
Qed.

Lemma mismatched_row_skipped_witness :
  add_data_rows 2
    [nl "| 1 | 2 |"; nl "| only one |"; nl "| 3 | 4 |"; nl "end"]
    (mk_table None 2 [[header_cell (u "A"); header_cell (u "B")]]) 2 =
  Ok (mk_table None 2
        [ [header_cell (u "A"); header_cell (u "B")];
          [data_cell (u "1"); data_cell (u "2")];
          [data_cell (u "3"); data_cell (u "4")] ],
      5).
Proof.
  apply (@mismatched_row_skipped 2
           (mk_table None 2 [[header_cell (u "A"); header_cell (u "B")]]) 2
           [nl "| 1 | 2 |"; nl "| only one |"; nl "| 3 | 4 |"; nl "end"]
           eq_refl).
Defined.

(** ** Inline bold *)

(** C2.  A line that reaches the inline-bold rule (it contains two stars
    in a row and matches no earlier rule, see [classify_bold]) yields
    exactly one paragraph.  Its runs are the segments of the split of the
    line on its paired delimiters ([splits]), one run per segment and in
    the order of the line: putting the stars back around the odd-indexed
    segments gives the line again.  The run of an odd-indexed segment, the
    text between a pair of delimiters, is bold; the run of an even-indexed
    one is not.  Every run has the size of 11 points and nothing else set. *)
Theorem inline_bold_paragraph (lines : list str) (st : state) (raw : str) :
  nth_error lines (i st) = Some raw ->
  in_code_block st = false ->
  classify (Str.rstrip raw) = Bold ->
  let line := Str.rstrip raw in
  let parts := Re.split line in
  body lines st =
    Ok (mk_state (S (i st)) false (code_lines st)
          (doc st ++ [Par (plain_paragraph (bold_runs parts))])) /\
  length (bold_runs parts) = length parts /\
  (forall j part,
     nth_error parts j = Some part ->
     nth_error (bold_runs parts) j =
     Some (mk_run part (Nat.odd j) false None (Some (Pt 11)) None)) /\
  unsplit parts = line /\
  splits line parts.
Proof.
  intros E F K line parts; subst line parts.
  repeat split.
  - unfold body.
    rewrite (index_nth _ _ E); cbn [bind].
    rewrite K, F, fold_add_run; unfold emit; rewrite F; reflexivity.
  - apply bold_runs_length.
  - intros j part; apply bold_runs_nth.
  - exact (split_from_unsplit _ [] _).
  - apply split_splits.
Qed.

Lemma inline_bold_paragraph_witness :
  scan [nl "Some **bold** text"] =
  Ok [Par (plain_paragraph
             [ mk_run (u "Some ") false false None (Some (Pt 11)) None;
               mk_run (u "bold") true false None (Some (Pt 11)) None;
               mk_run (u " text") false false None (Some (Pt 11)) None ])].
Proof.
  unfold scan; cbn [length].
  rewrite loop_step by (simpl; lia).
  rewrite (proj1 (@inline_bold_paragraph [nl "Some **bold** text"] initial
                    (nl "Some **bold** text") eq_refl eq_refl eq_refl)).
  reflexivity.
Defined.

(** ** Horizontal rules *)

(** C6, as amended.  Outside a fence, a line that starts with three
    hyphens, at its first column, yields exactly one element, an empty
    paragraph.  The test of the source is on the right-stripped line, whose
    start is the start of the line. *)
Theorem rule_emits_empty_paragraph
    (lines : list str) (st : state) (raw : str) :
  nth_error lines (i st) = Some raw ->
  in_code_block st = false ->
  Str.startswith (u "---") raw = true ->
  body lines st =
  Ok (mk_state (S (i st)) false (code_lines st)
        (doc st ++ [Par empty_paragraph])).
Proof.
  intros E F H; unfold body.
  rewrite (index_nth _ _ E); cbn [bind].
  rewrite classify_rule by (now rewrite rule_rstrip).
  rewrite F; unfold emit; now rewrite F.
Qed.

Lemma rule_emits_empty_paragraph_witness :
  body [nl "---"] initial = Ok (mk_state 1 false [] [Par empty_paragraph]).
Proof.
  apply (@rule_emits_empty_paragraph [nl "---"] initial (nl "---"));
    reflexivity.
Defined.

(** C6, as stated, fails: the hyphens of the line "  ---" come after two
    spaces.  Its stripped content starts with three hyphens, it is outside
    a fence and is neither a fence nor a heading, and the scanner emits a
    paragraph holding the line, not an empty paragraph. *)
Lemma indented_rule_is_text :
  ~ (forall (lines : list str) (st : state) (raw : str),
       nth_error lines (i st) = Some raw ->
       in_code_block st = false ->
       classify (Str.rstrip raw) <> Fence ->
       (forall level, classify (Str.rstrip raw) <> Heading level) ->
       Str.startswith (u "---") (Str.strip raw) = true ->
       body lines st =
       Ok (mk_state (S (i st)) false (code_lines st)
             (doc st ++ [Par empty_paragraph]))).
Proof.
  intros H.
  specialize (H [nl "  ---"] initial (nl "  ---") eq_refl eq_refl).
  assert (E : body [nl "  ---"] initial =
              Ok (mk_state 1 false [] [text_paragraph (u "  ---")]))
    by reflexivity.
  rewrite E in H.
  assert (C : Ok (mk_state 1 false [] [text_paragraph (u "  ---")]) =
              Ok (mk_state 1 false [] [Par empty_paragraph])).
  { apply H; [discriminate | discriminate | reflexivity]. }
  discriminate C.
Qed.

(** ** Lines with a pipe that start no table *)

(** A line that reaches the table rule and is not followed by a separator
    line leaves the iteration with nothing emitted: the branch of the table
    rule was taken, so the test of the plain-paragraph rule is not made. *)
Lemma pipe_line_dropped (lines : list str) (st : state) (raw : str) :
  nth_error lines (i st) = Some raw ->
  in_code_block st = false ->
  classify (Str.rstrip raw) = Pipe ->
  separator_follows lines (i st) = false ->
  body lines st = Ok (advance st).
Proof.
  intros E F K S; unfold body.
  rewrite (index_nth _ _ E); cbn [bind].
  rewrite K, F, S.
  now destruct (cells_of (Str.rstrip raw)).
Qed.

(** C7 does not hold of the code: a line with a pipe that is not followed
    by a separator line is dropped, no paragraph is emitted for it.  Here
    the lines before and after it are emitted and the line itself is not,
    with cells between pipes or without. *)
Theorem pipe_line_without_separator_dropped :
  scan [nl "before"; nl "| a | b |"; nl "after"] =
    Ok [text_paragraph (u "before"); text_paragraph (u "after")] /\
  scan [nl "before"; nl "run a | b to pipe"; nl "after"] =
    Ok [text_paragraph (u "before"); text_paragraph (u "after")] /\
  classify (u "| a | b |") = Pipe /\
  classify (u "run a | b to pipe") = Pipe.
Proof. repeat split; reflexivity. Qed.

(** ** The output path *)

Lemma contains_head (sub s : str) :
  Str.contains sub s = false -> Str.startswith sub s = false.
Proof.
  destruct s; simpl; intros H; apply orb_false_iff in H; tauto.
Qed.

(** A text without an occurrence of [old] is left as it is. *)
Lemma replace_from_absent (old new : str) (fuel : nat) :
  forall s, Str.contains old s = false -> Str.replace_from fuel old new s = s.
Proof.
  induction fuel as [|fuel IH]; intros s H; [reflexivity|].
  cbn [Str.replace_from].
  rewrite (contains_head _ _ H).
  destruct s as [|c s]; [reflexivity|].
  simpl in H; apply orb_false_iff in H as [_ H].
  now rewrite IH.
Qed.

Lemma replace_absent (old new s : str) :
  Str.contains old s = false -> Str.replace old new s = s.
Proof. apply replace_from_absent. Qed.

(** The rounds [replace] allows are enough. *)
Lemma replace_from_fuel (old new : str) (fuel : nat) :
  old <> [] ->
  forall fuel' s,
    length s < fuel -> length s < fuel' ->
    Str.replace_from fuel old new s = Str.replace_from fuel' old new s.
Proof.
  intros Hold; induction fuel as [|fuel IH]; intros fuel' s H H'; [lia|].
  destruct fuel' as [|fuel']; [lia|].
  cbn [Str.replace_from].
  destruct (Str.startswith old s) eqn:E.
  - f_equal; apply IH.
    + apply startswith_split in E.
      assert (0 < length old) by (destruct old; [congruence | simpl; lia]).
      rewrite E, length_app in H; lia.
    + apply startswith_split in E.
      assert (0 < length old) by (destruct old; [congruence | simpl; lia]).
      rewrite E, length_app in H'; lia.
  - destruct s as [|c s]; [reflexivity|].
    simpl in H, H'; f_equal; apply IH; lia.
Qed.

(** The example of the specification: with no output argument, "doc.md"
    gives "doc.docx". *)
Lemma output_file_doc_md :
  output_file [u "md-to-docx.py"; u "doc.md"] (u "doc.md") = Ok (u "doc.docx").
Proof. reflexivity. Qed.

(** With no output argument, a path without ".md" is the output path. *)
Lemma output_file_without_md (prog input_file : path) :
  Str.contains (u ".md") input_file = false ->
  output_file [prog; input_file] input_file = Ok input_file.
Proof.
  intros H; unfold output_file; cbn [length Nat.ltb Nat.leb].
  now rewrite replace_absent.
Qed.

Lemma replace_from_nil (old new : str) (fuel : nat) :
  old <> [] -> Str.replace_from fuel old new [] = [].
Proof.
  intros H; destruct fuel; [reflexivity|].
  destruct old; [congruence | reflexivity].
Qed.

Lemma md_not_at_head (s : str) :
  s <> [] ->
  Str.startswith (u ".md") s = false ->
  Str.startswith (u ".md") (s ++ u ".md") = false.
Proof.
  intros Hne H.
  destruct s as [|a [|b [|c s]]]; [congruence| | |exact H].
  - simpl; apply andb_false_r.
  - simpl; now rewrite !andb_false_r.
Qed.

Lemma replace_from_trailing (s : str) :
  forall fuel,
    length s + 3 < fuel ->
    Str.contains (u ".md") s = false ->
    Str.replace_from fuel (u ".md") (u ".docx") (s ++ u ".md") =
    s ++ u ".docx".
Proof.
  induction s as [|c s IH]; intros fuel Hf H;
    (destruct fuel as [|fuel]; [lia|]).
  - cbn [app Str.replace_from]; cbn.
    now rewrite replace_from_nil.
  - cbn [Str.replace_from].
    rewrite md_not_at_head by (discriminate || now apply contains_head).
    cbn [app]; f_equal.
    apply IH; [simpl in Hf; lia|].
    simpl in H; apply orb_false_iff in H; tauto.
Qed.

(** With no output argument, a path whose only ".md" is its extension gets
    the extension ".docx". *)
Lemma output_file_trailing_md (prog stem : path) :
  Str.contains (u ".md") stem = false ->
  output_file [prog; stem ++ u ".md"] (stem ++ u ".md") =
  Ok (stem ++ u ".docx").
Proof.
  intros H; unfold output_file, Str.replace; cbn [length Nat.ltb Nat.leb].
  rewrite replace_from_trailing; [reflexivity | | exact H].
  rewrite length_app; simpl; lia.
Qed.

(** C5 does not hold of the code: [str.replace] rewrites every ".md" of
    the input path, not the trailing extension only.  A directory named
    "a.md" is renamed in the output path, and a path that does not end in
    ".md" is changed. *)
Theorem output_path_replaces_every_md :
  output_file [u "md-to-docx.py"; u "a.md/b.md"] (u "a.md/b.md") =
    Ok (u "a.docx/b.docx") /\
  output_file [u "md-to-docx.py"; u "notes.md.txt"] (u "notes.md.txt") =
    Ok (u "notes.docx.txt").
Proof. split; reflexivity. Qed.

(** ** Files *)

(** C8.  When the input path names no file, opening it raises and the
    exception leaves [parse_markdown_to_docx], and the entry point, as it
    is: the files are those of before, [doc.save] is not reached and
    nothing is printed. *)
Theorem missing_input_fails
    (content : Type) (readlines : content -> result (list str))
    (save : document -> path -> (path -> option content) ->
            (path -> option content) * result unit)
    (prog md_file docx_file : path) (w : world content) :
  files w md_file = None ->
  parse_markdown_to_docx readlines save md_file docx_file w =
    (w, Raise FileNotFoundError) /\
  main readlines save [prog; md_file; docx_file] w =
    (w, Raise FileNotFoundError) /\
  main readlines save [prog; md_file] w = (w, Raise FileNotFoundError).
Proof.
  intros H.
  assert (P : forall out,
             parse_markdown_to_docx readlines save md_file out w =
             (w, Raise FileNotFoundError))
    by (intros out; unfold parse_markdown_to_docx, open_readlines;
        now rewrite H).
  repeat split; [apply P | apply P | apply P].
Qed.

Lemma missing_input_fails_witness :
  parse_markdown_to_docx (fun c : list str => Ok c)
    (fun d p fs => (fun q => if list_eq_dec N.eq_dec p q then Some [] else fs q,
                    Ok tt))
    (u "missing.md") (u "out.docx") (mk_world (fun _ => None) []) =
  (mk_world (fun _ => None) [], Raise FileNotFoundError).
Proof.
  apply (@missing_input_fails (list str) (fun c => Ok c)
           (fun d p fs =>
              (fun q => if list_eq_dec N.eq_dec p q then Some [] else fs q,
               Ok tt))
           (u "md-to-docx.py") (u "missing.md") (u "out.docx")
           (mk_world (fun _ => None) []) eq_refl).
Defined.

(** ** The loop as a whole *)

Lemma data_rows_ok (num_cols : nat) (rest : list str) :
  Forall (fun row => exists texts,
              length texts = num_cols /\ row = map data_cell texts)
    (data_rows num_cols rest).
Proof.
  unfold data_rows; apply Forall_forall; intros row H.
  apply in_map_iff in H as (cells & <- & Hc).
  apply filter_In in Hc as [_ Hlen].
  exists cells; split; [now apply Nat.eqb_eq | reflexivity].
Qed.

(** What one iteration does to the index and to the document. *)
Lemma body_shape (lines : list str) (st : state) :
  i st < length lines ->
  exists st',
    body lines st = Ok st' /\
    ((i st' = S (i st) /\
      (doc st' = doc st \/ exists p, doc st' = doc st ++ [Par p])) \/
     (exists t,
        table_ok t /\
        doc st' = doc st ++ [Tbl t] /\
        i st' = i st + 2 +
                length (take_while has_pipe (skipn (i st + 2) lines)))).
Proof.
  intros Hi; unfold body.
  destruct (nth_error lines (i st)) as [raw|] eqn:E;
    [|apply nth_error_None in E; lia].
  rewrite (index_nth _ _ E); cbn [bind].
  destruct (classify (Str.rstrip raw)) eqn:K; destruct (in_code_block st);
    try (eexists; split; [reflexivity|]; left; split; [reflexivity|];
         cbn [doc emit advance]; unfold add_paragraph, add_code_block;
         solve [now left | right; eexists; reflexivity]).
  - destruct (add_heading_ok (doc st) (heading_text raw K)
                (heading_level_allowed _ K)) as [p ->].
    eexists; split; [reflexivity|]; left; split; [reflexivity|].
    right; exists p; reflexivity.
  - destruct (cells_of (Str.rstrip raw)) as [|c cells] eqn:Ec;
      [eexists; split; [reflexivity|]; left; split; [reflexivity | now left]|].
    destruct (separator_follows lines (i st)) eqn:S;
      [|eexists; split; [reflexivity|]; left; split; [reflexivity | now left]].
    rewrite table_rule_spec.
    eexists; split; [reflexivity|]; right.
    eexists; split; [|split; reflexivity].
    exists (c :: cells), (data_rows (length (c :: cells)) (skipn (i st + 2) lines)).
    repeat split; [discriminate | apply data_rows_ok].
Qed.

(** X2.  Every iteration of the loop moves [i] forward and stays within
    the input, so the loop ends.  The step is one line, except when a table
    is emitted: then it is the header, the separator and every line with a
    pipe after them. *)
Theorem iteration_moves_forward (lines : list str) (st : state) :
  i st < length lines ->
  exists st',
    body lines st = Ok st' /\
    i st < i st' <= length lines /\
    (i st' = S (i st) \/
     exists t,
       doc st' = doc st ++ [Tbl t] /\
       i st' = i st + 2 +
               length (take_while has_pipe (skipn (i st + 2) lines))).
Proof.
  intros Hi.
  destruct (body_ok lines st Hi) as (st1 & Hb1 & Hlt).
  destruct (body_shape lines st Hi) as (st' & Hb & Hs).
  rewrite Hb in Hb1; injection Hb1 as <-.
  exists st'; repeat split; try lia; [exact Hb|].
  destruct Hs as [[Hs _] | (t & _ & Hd & Hs)]; [now left|].
  right; exists t; now split.
Qed.

Lemma iteration_moves_forward_witness :
  exists st',
    body [nl "| A |"; nl "|---|"; nl "| 1 |"; nl "end"] initial = Ok st' /\
    0 < i st' <= 4 /\
    (i st' = 1 \/
     exists t, doc st' = [Tbl t] /\ i st' = 3).
Proof.
  apply (@iteration_moves_forward
           [nl "| A |"; nl "|---|"; nl "| 1 |"; nl "end"] initial).
  simpl; lia.
Defined.

(** X3.  The document is built by appending: an iteration leaves the
    elements emitted so far as they are and in their order, and adds at
    most one element after them. *)
Theorem document_append_only (lines : list str) (st : state) :
  i st < length lines ->
  exists st',
    body lines st = Ok st' /\
    (doc st' = doc st \/ exists e, doc st' = doc st ++ [e]).
Proof.
  intros Hi.
  destruct (body_shape lines st Hi) as (st' & Hb & Hs).
  exists st'; split; [exact Hb|].
  destruct Hs as [[_ [Hd | [p Hd]]] | (t & _ & Hd & _)];
    [now left | right; now exists (Par p) | right; now exists (Tbl t)].
Qed.

Lemma document_append_only_witness :
  exists st',
    body [nl "one"; nl "two"] (mk_state 1 false [] [text_paragraph (u "one")])
      = Ok st' /\
    (doc st' = [text_paragraph (u "one")] \/
     exists e, doc st' = [text_paragraph (u "one")] ++ [e]).
Proof.
  apply (@document_append_only [nl "one"; nl "two"]
           (mk_state 1 false [] [text_paragraph (u "one")])).
  simpl; lia.
Defined.

Lemma doc_size (lines : list str) (st : state) :
  reachable lines st -> length (doc st) <= i st.
Proof.
  induction 1 as [|st st' R IH Hi Hb]; [simpl; lia|].
  destruct (body_shape lines st Hi) as (st1 & Hb1 & Hs).
  rewrite Hb in Hb1; injection Hb1 as <-.
  destruct Hs as [[Hn [Hd | [p Hd]]] | (t & _ & Hd & Hn)];
    rewrite Hd, ?length_app; simpl; lia.
Qed.

(** X4.  A document never holds more elements than the input has lines:
    every element takes at least one line. *)
Theorem document_size_bounded (lines : list str) :
  exists d, scan lines = Ok d /\ length d <= length lines.
Proof.
  destruct (@loop_exits (length lines) lines initial) as (st & H & Hge);
    [lia|].
  exists (doc st); split; [unfold scan; now rewrite H|].
  pose proof (loop_reachable _ (reach_initial lines) H) as R.
  pose proof (doc_size R); pose proof (reachable_bound R); lia.
Qed.

Lemma doc_elements_ok (lines : list str) (st : state) :
  reachable lines st -> Forall element_ok (doc st).
Proof.
  induction 1 as [|st st' R IH Hi Hb]; [constructor|].
  destruct (body_shape lines st Hi) as (st1 & Hb1 & Hs).
  rewrite Hb in Hb1; injection Hb1 as <-.
  destruct Hs as [[_ [Hd | [p Hd]]] | (t & Ht & Hd & _)]; rewrite Hd;
    [exact IH | |]; apply Forall_app; split; auto; now constructor.
Qed.

(** X5.  Every table of a document is rectangular: it has at least one
    column, its first row is the header, one bold cell per column, and each
    of its data rows has one plain cell per column.  No ragged row gets into
    a table. *)
Theorem tables_rectangular (lines : list str) :
  exists d,
    scan lines = Ok d /\
    forall t, In (Tbl t) d ->
      0 < table_cols t /\
      (exists cells, length cells = table_cols t /\
                     hd [] (table_rows t) = map header_cell cells) /\
      Forall (fun row => length row = table_cols t) (table_rows t).
Proof.
  destruct (@loop_exits (length lines) lines initial) as (st & H & Hge);
    [lia|].
  exists (doc st); split; [unfold scan; now rewrite H|].
  intros t Hin.
  pose proof (doc_elements_ok (loop_reachable _ (reach_initial lines) H)) as Hok.
  rewrite Forall_forall in Hok; specialize (Hok _ Hin); cbn in Hok.
  destruct Hok as (cells & data & Hne & Hc & Hr & Hd).
  repeat split.
  - rewrite Hc; destruct cells; [congruence | simpl; lia].
  - exists cells; split; [now rewrite Hc | now rewrite Hr].
  - rewrite Hr, Hc; constructor; [apply length_map|].
    eapply Forall_impl; [|exact Hd].
    intros row (texts & Hl & ->); now rewrite length_map.
Qed.

(** ** The rules, one by one *)

Lemma startswith_head (prefix : str) (c : char) (l : str) :
  match prefix with
  | [] => False
  | p :: _ => p <> c
  end ->
  Str.startswith prefix (c :: l) = false.
Proof.
  destruct prefix as [|p ps]; [contradiction|].
  intros H; simpl; apply N.eqb_neq in H; now rewrite H.
Qed.

(** X6.  A line that reaches a heading rule yields exactly one heading of
    the level given by its number signs, one to four.  The text of the
    heading is the line after the prefix and is never empty, so the run the
    source formats, [heading.runs[0]], exists; levels 1 and 2 get their size
    and colour, levels 3 and 4 keep the style of the library. *)
Theorem heading_rule (lines : list str) (st : state) (raw : str) (level : nat) :
  nth_error lines (i st) = Some raw ->
  in_code_block st = false ->
  classify (Str.rstrip raw) = Heading level ->
  exists text,
    text <> [] /\
    1 <= level <= 4 /\
    Str.rstrip raw = heading_prefix level ++ text /\
    body lines st =
    Ok (mk_state (S (i st)) false (code_lines st)
          (doc st ++ [heading_element level text])).
Proof.
  intros E F K.
  pose proof (heading_text raw K) as Htext.
  pose proof (classify_heading_level _ K) as Hlevel.
  exists (skipn (S level) (Str.rstrip raw)).
  repeat split; try lia; [exact Htext | |].
  - pose proof K as K0; chain K0; injection K0 as <-;
      match goal with
      | H : Str.startswith _ _ = true |- _ => exact (startswith_split _ _ H)
      end.
  - unfold body.
    rewrite (index_nth _ _ E); cbn [bind].
    rewrite K, F; unfold emit; rewrite F.
    destruct (skipn (S level) (Str.rstrip raw)) as [|c text]; [congruence|].
    destruct level as [|[|[|[|[|n]]]]]; try lia; reflexivity.
Qed.

Lemma heading_rule_witness :
  exists text,
    text <> [] /\
    1 <= 3 <= 4 /\
    Str.rstrip (nl "### Details  ") = heading_prefix 3 ++ text /\
    body [nl "### Details  "] initial =
    Ok (mk_state 1 false [] [heading_element 3 text]).
Proof.
  apply (@heading_rule [nl "### Details  "] initial (nl "### Details  ") 3);
    reflexivity.
Defined.



Lemma classify_bullet (line : str) :
  Str.startswith (u "- ") line || Str.startswith (u "* ") line = true ->
  classify line = Bullet.
Proof.
  intros H; apply orb_true_iff in H as [H | H];
    apply startswith_split in H; rewrite H; reflexivity.
Qed.

(** X8.  Outside a fence, a line that starts with a hyphen or a star and a
    space yields one paragraph: the bullet glyph, a space and the line after
    its two first characters, as it is.  Stars in the item stay in the text:
    the inline-bold rule is not applied to a list item. *)
Theorem bullet_rule (lines : list str) (st : state) (raw : str) :
  nth_error lines (i st) = Some raw ->
  in_code_block st = false ->
  Str.startswith (u "- ") (Str.rstrip raw) ||
  Str.startswith (u "* ") (Str.rstrip raw) = true ->
  body lines st =
  Ok (mk_state (S (i st)) false (code_lines st)
        (doc st ++
         [text_paragraph ([8226%N; 32%N] ++ skipn 2 (Str.rstrip raw))])).
Proof.
  intros E F H; unfold body.
  rewrite (index_nth _ _ E); cbn [bind].
  rewrite (classify_bullet _ H), F; unfold emit; now rewrite F.
Qed.

Lemma bullet_rule_witness :
  body [nl "* a **b** c"] initial =
  Ok (mk_state 1 false []
        [text_paragraph ([8226%N; 32%N] ++ u "a **b** c")]).
Proof.
  apply (@bullet_rule [nl "* a **b** c"] initial (nl "* a **b** c"));
    reflexivity.
Defined.

Lemma decimal_not_prefix (c : char) :
  isdecimal c = true -> 96%N <> c /\ 35%N <> c /\ 45%N <> c /\ 42%N <> c.
Proof.
  intros H; repeat split; intros <-; vm_compute in H; discriminate.
Qed.

Lemma classify_ordered (line : str) :
  Re.match_ordered line = true -> classify line = Ordered.
Proof.
  intros H; pose proof H as H0; unfold Re.match_ordered in H0.
  destruct line as [|c l]; [discriminate|]; simpl in H0.
  destruct (isdecimal c) eqn:D; [|discriminate].
  destruct (decimal_not_prefix c D) as (N1 & N2 & N3 & N4).
  unfold classify.
  rewrite (@startswith_head (u "```") c l N1).
  rewrite (@startswith_head (u "# ") c l N2).
  rewrite (@startswith_head (u "## ") c l N2).
  rewrite (@startswith_head (u "### ") c l N2).
  rewrite (@startswith_head (u "#### ") c l N2).
  rewrite (@startswith_head (u "---") c l N3).
  rewrite (@startswith_head (u "- ") c l N3).
  rewrite (@startswith_head (u "* ") c l N4).
  cbn [orb]; now rewrite H.
Qed.

(** X9.  Outside a fence, a line that starts with decimal digits and a
    period yields one paragraph holding the line as it is, right-stripped:
    the number is kept and no later rule is applied. *)
Theorem ordered_rule (lines : list str) (st : state) (raw : str) :
  nth_error lines (i st) = Some raw ->
  in_code_block st = false ->
  Re.match_ordered (Str.rstrip raw) = true ->
  body lines st =
  Ok (mk_state (S (i st)) false (code_lines st)
        (doc st ++ [text_paragraph (Str.rstrip raw)])).
Proof.
  intros E F H; unfold body.
  rewrite (index_nth _ _ E); cbn [bind].
  rewrite (classify_ordered _ H), F; unfold emit; now rewrite F.
Qed.

Lemma ordered_rule_witness :
  body [nl "3.14 is **pi** | approx"] initial =
  Ok (mk_state 1 false [] [text_paragraph (u "3.14 is **pi** | approx")]).
Proof.
  apply (@ordered_rule [nl "3.14 is **pi** | approx"] initial
           (nl "3.14 is **pi** | approx"));
    reflexivity.
Defined.

Lemma drop_while_all {A : Type} (p : A -> bool) (l : list A) :
  forallb p l = true -> drop_while p l = [].
Proof.
  induction l as [|x l IH]; simpl; [reflexivity|].
  intros H; apply andb_true_iff in H as [Hx Hl]; now rewrite Hx, IH.
Qed.

Lemma forallb_rev {A : Type} (p : A -> bool) (l : list A) :
  forallb p (rev l) = forallb p l.
Proof.
  induction l as [|x l IH]; simpl; [reflexivity|].
  rewrite forallb_app, IH; simpl; rewrite andb_true_r; apply andb_comm.
Qed.

Lemma rstrip_all_space (s : str) :
  forallb isspace s = true -> Str.rstrip s = [].
Proof.
  intros H; unfold Str.rstrip, Str.lstrip.
  rewrite drop_while_all by (now rewrite forallb_rev); reflexivity.
Qed.

Lemma rstrip_nil (s : str) : Str.rstrip s = [] -> forallb isspace s = true.
Proof.
  intros H; destruct (rstrip_decompose s) as (ws & Hs & Hws).
  rewrite H in Hs; simpl in Hs; now subst.
Qed.

Lemma lstrip_nil (s : str) : Str.lstrip s = [] -> forallb isspace s = true.
Proof.
  unfold Str.lstrip; induction s as [|c s IH]; simpl; [reflexivity|].
  destruct (isspace c); [exact IH | discriminate].
Qed.

(** A text strips to nothing exactly when it is made of whitespace. *)
Lemma strip_nil (s : str) :
  Str.strip s = [] <-> forallb isspace s = true.
Proof.
  unfold Str.strip; split.
  - intros H; apply lstrip_nil in H.
    destruct (Str.rstrip s) as [|c l] eqn:E using rev_ind;
      [now apply rstrip_nil|].
    clear IHl.
    pose proof (rstrip_last _ _ _ E) as Hc.
    rewrite forallb_app in H; simpl in H.
    rewrite Hc, andb_false_r in H; discriminate.
  - intros H; now rewrite rstrip_all_space.
Qed.

(** X10.  Outside a fence, a line made of whitespace only, the empty line
    among them, emits nothing: the iteration moves to the next line and the
    document is the one of before. *)
Theorem blank_line_skipped (lines : list str) (st : state) (raw : str) :
  nth_error lines (i st) = Some raw ->
  in_code_block st = false ->
  forallb isspace raw = true ->
  body lines st = Ok (mk_state (S (i st)) false (code_lines st) (doc st)).
Proof.
  intros E F H; unfold body.
  rewrite (index_nth _ _ E); cbn [bind].
  rewrite (rstrip_all_space _ H), F; unfold advance; now rewrite F.
Qed.

Lemma blank_line_skipped_witness :
  body [[32%N; 9%N; 160%N; LF]] initial = Ok (mk_state 1 false [] []).
Proof.
  apply (@blank_line_skipped [[32%N; 9%N; 160%N; LF]] initial
           [32%N; 9%N; 160%N; LF]);
    reflexivity.
Defined.

(** No whitespace character is a decimal digit. *)
Lemma space_not_decimal (c : char) : isspace c = true -> isdecimal c = false.
Proof.
  intros H; apply not_true_iff_false; intros D.
  apply existsb_exists in H as [[a b] [Ha Hab]].
  apply existsb_exists in D as [[lo hi] [Hl Hlh]].
  cbn [fst snd] in Hab, Hlh.
  apply andb_true_iff in Hab as [H1 H2]; apply andb_true_iff in Hlh as [H3 H4].
  apply N.leb_le in H1, H2, H3, H4.
  unfold whitespace_table in Ha; unfold decimal_table in Hl.
  simpl in Ha, Hl.
  repeat (destruct Ha as [Ha | Ha]); try contradiction;
    injection Ha as <- <-;
    repeat (destruct Hl as [Hl | Hl]); try contradiction;
    injection Hl as <- <-; lia.
Qed.

Lemma space_not_prefix (c : char) :
  isspace c = true -> 96%N <> c /\ 35%N <> c /\ 45%N <> c /\ 42%N <> c.
Proof.
  intros H; repeat split; intros <-; vm_compute in H; discriminate.
Qed.

(** X11.  A line that starts with a whitespace character and is not blank
    is no fence, heading, horizontal rule or list item: the prefixes of
    these rules are tested at the first column of the line, of which only
    the right end is stripped.  It goes to the inline-bold, table or
    plain-paragraph rule, and without two stars in a row and without a pipe
    it is a plain paragraph that keeps its indentation. *)
Theorem indented_line (lines : list str) (st : state) (c : char) (rest : str) :
  nth_error lines (i st) = Some (c :: rest) ->
  in_code_block st = false ->
  isspace c = true ->
  forallb isspace rest = false ->
  (exists l, Str.rstrip (c :: rest) = c :: l) /\
  (classify (Str.rstrip (c :: rest)) = Bold \/
   classify (Str.rstrip (c :: rest)) = Pipe \/
   classify (Str.rstrip (c :: rest)) = Plain) /\
  (Str.contains (u "**") (Str.rstrip (c :: rest)) = false ->
   Str.contains (u "|") (Str.rstrip (c :: rest)) = false ->
   body lines st =
   Ok (mk_state (S (i st)) false (code_lines st)
         (doc st ++ [text_paragraph (Str.rstrip (c :: rest))]))).
Proof.
  intros E F Hc Hrest.
  destruct (rstrip_decompose (c :: rest)) as (ws & Hs & Hws).
  assert (Hline : forallb isspace (Str.rstrip (c :: rest)) = false).
  { destruct (forallb isspace (Str.rstrip (c :: rest))) eqn:A; [|reflexivity].
    assert (B : forallb isspace (c :: rest) = true)
      by (rewrite Hs, forallb_app, A, Hws; reflexivity).
    simpl in B; rewrite Hc, Hrest in B; discriminate. }
  destruct (Str.rstrip (c :: rest)) as [|x l] eqn:R; [discriminate|].
  injection Hs as <- _.
  assert (Hstrip : Str.strip (c :: l) <> [])
    by (intros A; apply strip_nil in A; congruence).
  destruct (space_not_prefix c Hc) as (N1 & N2 & N3 & N4).
  assert (K : classify (c :: l) =
              if Str.contains (u "**") (c :: l) then Bold
              else if Str.contains (u "|") (c :: l) &&
                      negb (Str.startswith (u "|---") (c :: l))
                   then Pipe else Plain).
  { unfold classify.
    rewrite (@startswith_head (u "```") c l N1).
    rewrite (@startswith_head (u "# ") c l N2).
    rewrite (@startswith_head (u "## ") c l N2).
    rewrite (@startswith_head (u "### ") c l N2).
    rewrite (@startswith_head (u "#### ") c l N2).
    rewrite (@startswith_head (u "---") c l N3).
    rewrite (@startswith_head (u "- ") c l N3).
    rewrite (@startswith_head (u "* ") c l N4).
    cbn [orb].
    replace (Re.match_ordered (c :: l)) with false
      by (unfold Re.match_ordered; simpl;
          now rewrite (space_not_decimal c Hc)).
    destruct (Str.strip (c :: l)); [congruence | reflexivity]. }
  repeat split.
  - now exists l.
  - rewrite K.
    destruct (Str.contains (u "**") (c :: l)); [now left|].
    destruct (Str.contains (u "|") (c :: l) &&
              negb (Str.startswith (u "|---") (c :: l))); auto.
  - intros Hb Hp; unfold body.
    rewrite (index_nth _ _ E); cbn [bind].
    rewrite R, K, Hb, Hp, F; unfold emit; now rewrite F.
Qed.

Lemma indented_line_witness :
  body [nl "    # not a heading"] initial =
  Ok (mk_state 1 false [] [text_paragraph (u "    # not a heading")]).
Proof.
  apply (@indented_line [nl "    # not a heading"] initial 32%N
           (nl "   # not a heading"));
    reflexivity.
Defined.

(** X12.  A separator line met by the loop itself, outside a fence, is not
    a table: the table rule excludes the lines that start with "|---".
    Without two stars in a row it yields a plain paragraph holding the
    line. *)
Theorem stray_separator_is_text (lines : list str) (st : state) (raw : str) :
  nth_error lines (i st) = Some raw ->
  in_code_block st = false ->
  Str.startswith (u "|---") raw = true ->
  Str.contains (u "**") (Str.rstrip raw) = false ->
  body lines st =
  Ok (mk_state (S (i st)) false (code_lines st)
        (doc st ++ [text_paragraph (Str.rstrip raw)])).
Proof.
  intros E F H Hb.
  rewrite <- (@startswith_rstrip (u "|---")) in H by reflexivity.
  unfold body.
  rewrite (index_nth _ _ E); cbn [bind].
  assert (K : classify (Str.rstrip raw) = Plain).
  { pose proof (startswith_split _ _ H) as Hs.
    cbn [u length app] in Hs.
    remember (skipn 4 (Str.rstrip raw)) as l eqn:Hl; clear Hl.
    assert (Hstrip : Str.strip (Str.rstrip raw) <> [])
      by (intros A; apply strip_nil in A; rewrite Hs in A; discriminate).
    assert (T : forall p,
               match p with [] => False | x :: _ => x <> 124%N end ->
               Str.startswith p (Str.rstrip raw) = false)
      by (intros p Hp; rewrite Hs; now apply startswith_head).
    assert (M : Re.match_ordered (Str.rstrip raw) = false)
      by (rewrite Hs; reflexivity).
    assert (P : Str.contains (u "|") (Str.rstrip raw) = true)
      by (rewrite Hs; reflexivity).
    unfold classify; rewrite Hb, H, M, P.
    rewrite !T by (cbn; discriminate).
    cbn [orb andb negb].
    destruct (Str.strip (Str.rstrip raw)); [congruence | reflexivity]. }
  rewrite K, F; unfold emit; now rewrite F.
Qed.

Lemma stray_separator_is_text_witness :
  body [nl "|---|---|"] initial =
  Ok (mk_state 1 false [] [text_paragraph (u "|---|---|")]).
Proof.
  apply (@stray_separator_is_text [nl "|---|---|"] initial (nl "|---|---|"));
    reflexivity.
Defined.

(** ** Cells *)

Lemma split_length (sep : char) (s : str) :
  length (Str.split sep s) = S (count_occ N.eq_dec s sep).
Proof.
  induction s as [|c s IH]; [reflexivity|].
  cbn [Str.split]; destruct (N.eqb_spec c sep) as [->|Hne].
  - rewrite count_occ_cons_eq by reflexivity; simpl; now rewrite IH.
  - rewrite count_occ_cons_neq by exact Hne.
    destruct (Str.split sep s); [discriminate IH | exact IH].
Qed.

Lemma removelast_length {A : Type} (l : list A) :
  length (removelast l) = length l - 1.
Proof.
  induction l as [|x l IH]; [reflexivity|].
  destruct l as [|y l]; [reflexivity|].
  change (length (x :: removelast (y :: l)) = length (x :: y :: l) - 1).
  simpl length in *; rewrite IH; lia.
Qed.

(** X13.  The cell count of a line is the number of its pipes less one:
    the text before the first pipe and the text after the last one are no
    cells.  A header needs two pipes to have a cell, so a header written
    without its outer pipes, as "A | B", starts no table. *)
Theorem cell_count (line : str) :
  length (cells_of line) = count_occ N.eq_dec line PIPE - 1 /\
  (cells_of line <> [] <-> 2 <= count_occ N.eq_dec line PIPE).
Proof.
  assert (H : length (cells_of line) = count_occ N.eq_dec line PIPE - 1).
  { unfold cells_of, slice_1_m1.
    rewrite length_map, removelast_length.
    pose proof (split_length PIPE line) as L.
    destruct (Str.split PIPE line); simpl in *; lia. }
  split; [exact H|].
  destruct (cells_of line); simpl in H; split; intros; try congruence; lia.
Qed.

Lemma split_no_sep (s : str) : Forall no_pipe (Str.split PIPE s).
Proof.
  unfold no_pipe; induction s as [|c s IH]; [repeat constructor|].
  cbn [Str.split]; destruct (c =? PIPE)%N eqn:E; [now constructor|].
  destruct (Str.split PIPE s) as [|seg segs]; [repeat constructor; simpl; now rewrite E|].
  inversion IH as [|? ? Hseg Hsegs]; subst.
  constructor; [simpl; now rewrite E, Hseg | exact Hsegs].
Qed.

Lemma in_removelast {A : Type} (l : list A) (x : A) :
  In x (removelast l) -> In x l.
Proof.
  induction l as [|y l IH]; [contradiction|].
  destruct l as [|z l]; [contradiction|].
  intros [-> | H]; [now left | right; now apply IH].
Qed.

Lemma in_tl {A : Type} (l : list A) (x : A) : In x (tl l) -> In x l.
Proof. destruct l; [contradiction | now right]. Qed.

Lemma forallb_drop_while {A : Type} (p q : A -> bool) (l : list A) :
  forallb q l = true -> forallb q (drop_while p l) = true.
Proof.
  induction l as [|x l IH]; [reflexivity|]; intros H; simpl.
  destruct (p x); [|exact H].
  simpl in H; apply andb_true_iff in H; now apply IH.
Qed.

Lemma forallb_strip (q : char -> bool) (s : str) :
  forallb q s = true -> forallb q (Str.strip s) = true.
Proof.
  intros H; unfold Str.strip, Str.lstrip, Str.rstrip, Str.lstrip.
  apply forallb_drop_while; rewrite forallb_rev.
  apply forallb_drop_while; now rewrite forallb_rev.
Qed.

Lemma strip_trimmed (s : str) :
  (forall x r, Str.strip s = x :: r -> isspace x = false) /\
  (forall r x, Str.strip s = r ++ [x] -> isspace x = false).
Proof.
  unfold Str.strip, Str.lstrip; split.
  - intros x r H; exact (drop_while_head _ _ H).
  - intros r x H.
    pose proof (take_drop_while isspace (Str.rstrip s)) as T.
    rewrite H, app_assoc in T.
    exact (rstrip_last _ _ _ (eq_sym T)).
Qed.

(** X14.  The text of a cell holds no pipe and neither starts nor ends
    with whitespace: a cell is a segment between two pipes of the line,
    stripped at both ends. *)
Theorem cells_trimmed (line cell_text : str) :
  In cell_text (cells_of line) ->
  no_pipe cell_text /\
  (forall x r, cell_text = x :: r -> isspace x = false) /\
  (forall r x, cell_text = r ++ [x] -> isspace x = false).
Proof.
  unfold cells_of, slice_1_m1; intros H.
  apply in_map_iff in H as (seg & <- & Hseg).
  apply in_removelast, in_tl in Hseg.
  pose proof (split_no_sep line) as Hall.
  rewrite Forall_forall in Hall; specialize (Hall _ Hseg).
  split; [now apply forallb_strip | apply strip_trimmed].
Qed.

Lemma cells_trimmed_witness :
  no_pipe (u "first name") /\
  (forall x r, u "first name" = x :: r -> isspace x = false) /\
  (forall r x, u "first name" = r ++ [x] -> isspace x = false).
Proof.
  apply (@cells_trimmed (nl "|  first name  | age |") (u "first name")).
  simpl; auto.
Defined.

(** ** Bold spans *)

Lemma app_same_length {A : Type} (a b x y : list A) :
  length a = length b -> a ++ x = b ++ y -> a = b /\ x = y.
Proof.
  revert b; induction a as [|c a IH]; intros [|d b] L H; try discriminate.
  - now split.
  - injection L as L; injection H as -> H.
    destruct (IH b L H) as [-> ->]; now split.
Qed.

Lemma span_found (pre g rest : str) :
  g <> [] -> forallb Re.not_star g = true ->
  Re.match_bold
    (skipn (length pre) (pre ++ [STAR; STAR] ++ g ++ [STAR; STAR] ++ rest)) =
  Some (g, rest).
Proof.
  intros Hg Hs; rewrite skipn_length_app; now apply match_bold_complete.
Qed.

Lemma splits_unique (s : str) (p1 : list str) :
  splits s p1 -> forall p2, splits s p2 -> p1 = p2.
Proof.
  induction 1 as [s Hnone | pre g rest parts Hleft Hg Hs Hrest IH];
    intros p2 H2.
  - inversion H2 as [s0 Hn0 | pre0 g0 rest0 parts0 Hl0 Hg0 Hs0 Hr0 Heq];
      [reflexivity|].
    subst s; specialize (Hnone (length pre0)).
    rewrite span_found in Hnone by assumption; discriminate.
  - inversion H2 as [s0 Hn0 | pre0 g0 rest0 parts0 Hl0 Hg0 Hs0 Hr0 Heq].
    + specialize (Hn0 (length pre)).
      rewrite span_found in Hn0 by assumption; discriminate.
    + cbn [app] in Hleft, Hl0, Heq.
      assert (L : length pre0 = length pre).
      { destruct (Nat.lt_trichotomy (length pre0) (length pre)) as [Lt | [E | Gt]];
          [exfalso | exact E | exfalso].
        - specialize (Hleft _ Lt); rewrite <- Heq in Hleft.
          pose proof (span_found pre0 rest0 Hg0 Hs0) as S0; cbn [app] in S0.
          rewrite S0 in Hleft; discriminate.
        - specialize (Hl0 _ Gt); rewrite Heq in Hl0.
          pose proof (span_found pre rest Hg Hs) as S1; cbn [app] in S1.
          rewrite S1 in Hl0; discriminate. }
      destruct (app_same_length _ _ _ _ L Heq) as [-> Htail].
      pose proof (match_bold_complete rest0 Hg0 Hs0) as M0.
      pose proof (match_bold_complete rest Hg Hs) as M1.
      cbn [app] in M0, M1, Htail.
      rewrite Htail, M1 in M0.
      injection M0 as <- <-.
      now rewrite (IH _ Hr0).
Qed.

(** X15.  The split of the inline-bold rule is the one list of segments
    that cuts the line at its bold spans taken from the left: a span is two
    stars, a non-empty text without a star and two stars, and a text that
    could open a span earlier in the line is never passed over. *)
Theorem split_is_leftmost (s : str) (parts : list str) :
  splits s parts <-> parts = Re.split s.
Proof.
  split.
  - intros H; exact (splits_unique H (split_splits s)).
  - intros ->; apply split_splits.
Qed.

Lemma split_from_no_span (fuel : nat) :
  forall acc s,
    (forall k, Re.match_bold (skipn k s) = None) ->
    Re.split_from fuel acc s = [rev acc ++ s].
Proof.
  induction fuel as [|fuel IH]; intros acc s H; [reflexivity|].
  pose proof (H 0) as H0; cbn [skipn] in H0.
  cbn [Re.split_from]; rewrite H0.
  destruct s as [|c s]; [now rewrite app_nil_r|].
  rewrite IH by (intros k; exact (H (S k))).
  simpl; now rewrite <- app_assoc.
Qed.

(** X16.  A line that reaches the inline-bold rule and holds no bold span
    (its stars are unpaired, or enclose nothing, or enclose a star) yields
    one paragraph with one run: the line as it is, stars included, not
    bold. *)
Theorem unpaired_stars_kept (lines : list str) (st : state) (raw : str) :
  nth_error lines (i st) = Some raw ->
  in_code_block st = false ->
  classify (Str.rstrip raw) = Bold ->
  (forall k, Re.match_bold (skipn k (Str.rstrip raw)) = None) ->
  body lines st =
  Ok (mk_state (S (i st)) false (code_lines st)
        (doc st ++
         [Par (plain_paragraph
                 [mk_run (Str.rstrip raw) false false None (Some (Pt 11))
                    None])])).
Proof.
  intros E F K H; unfold body.
  rewrite (index_nth _ _ E); cbn [bind].
  rewrite K, F; unfold Re.split.
  rewrite split_from_no_span by exact H.
  unfold emit; rewrite F; reflexivity.
Qed.

Lemma unpaired_stars_kept_witness :
  body [nl "2 ** 3 = 8"] initial =
  Ok (mk_state 1 false []
        [Par (plain_paragraph
                [mk_run (u "2 ** 3 = 8") false false None (Some (Pt 11))
                   None])]).
Proof.
  apply (@unpaired_stars_kept [nl "2 ** 3 = 8"] initial
           (nl "2 ** 3 = 8"));
    try reflexivity.
  intros k.
  do 11 (destruct k as [|k]; [reflexivity|]).
  destruct k; reflexivity.
Defined.

(** ** Runs of the program *)

(** X17.  Run with an input path alone, the program writes to the path
    with the extension ".docx" when the only ".md" of the input path is its
    extension. *)
Theorem default_output_path
    (content : Type) (readlines : content -> result (list str))
    (save : document -> path -> (path -> option content) ->
            (path -> option content) * result unit)
    (prog stem : path) (w : world content) :
  Str.contains (u ".md") stem = false ->
  main readlines save [prog; stem ++ u ".md"] w =
  parse_markdown_to_docx readlines save (stem ++ u ".md") (stem ++ u ".docx") w.
Proof.
  intros H; unfold main; cbn [length Nat.ltb Nat.leb index nth_error].
  now rewrite output_file_trailing_md.
Qed.

Lemma default_output_path_witness :
  main (fun c : list str => Ok c) (fun _ _ fs => (fs, Ok tt))
    [u "md-to-docx.py"; u "notes/todo" ++ u ".md"]
    (mk_world (fun _ => None) []) =
  parse_markdown_to_docx (fun c : list str => Ok c) (fun _ _ fs => (fs, Ok tt))
    (u "notes/todo" ++ u ".md") (u "notes/todo" ++ u ".docx")
    (mk_world (fun _ => None) []).
Proof.
  apply (@default_output_path (list str) (fun c => Ok c)
           (fun _ _ fs => (fs, Ok tt)) (u "md-to-docx.py") (u "notes/todo")
           (mk_world (fun _ => None) [])).
  reflexivity.
Defined.

(** X18.  Run with an input path alone that holds no ".md", the program
    takes the input path as its output path: the document is saved over the
    file it was read from. *)
Theorem output_over_input
    (content : Type) (readlines : content -> result (list str))
    (save : document -> path -> (path -> option content) ->
            (path -> option content) * result unit)
    (prog input_file : path) (w : world content) :
  Str.contains (u ".md") input_file = false ->
  main readlines save [prog; input_file] w =
  parse_markdown_to_docx readlines save input_file input_file w.
Proof.
  intros H; unfold main; cbn [length Nat.ltb Nat.leb index nth_error].
  now rewrite output_file_without_md.
Qed.

Lemma output_over_input_witness :
  main (fun c : list str => Ok c)
    (fun d p fs =>
       (fun q => if list_eq_dec N.eq_dec p q then Some [] else fs q, Ok tt))
    [u "md-to-docx.py"; u "README.markdown"]
    (mk_world (fun _ => Some [nl "# Title"]) []) =
  parse_markdown_to_docx (fun c : list str => Ok c)
    (fun d p fs =>
       (fun q => if list_eq_dec N.eq_dec p q then Some [] else fs q, Ok tt))
    (u "README.markdown") (u "README.markdown")
    (mk_world (fun _ => Some [nl "# Title"]) []).
Proof.
  apply (@output_over_input (list str) (fun c => Ok c)
           (fun d p fs =>
              (fun q => if list_eq_dec N.eq_dec p q then Some [] else fs q,
               Ok tt))
           (u "md-to-docx.py") (u "README.markdown")
           (mk_world (fun _ => Some [nl "# Title"]) [])).
  reflexivity.
Defined.

(** ** Inside a fence *)

(** X20.  Inside a fence no rule but the fence test is applied: a line
    that does not start with three backticks, whatever it looks like, is
    added to the buffer, right-stripped and with its indentation, nothing is
    emitted, and the loop moves on by one line, with no lookahead for a
    table. *)
Theorem inside_fence_verbatim (lines : list str) (st : state) (raw : str) :
  nth_error lines (i st) = Some raw ->
  in_code_block st = true ->
  Str.startswith (u "```") raw = false ->
  body lines st =
  Ok (mk_state (S (i st)) true (code_lines st ++ [Str.rstrip raw]) (doc st)).
Proof.
  intros E F H; unfold body.
  rewrite (index_nth _ _ E); cbn [bind].
  pose proof (classify_not_fence _ (eq_trans (fence_rstrip raw) H)) as NF.
  rewrite F.
  destruct (classify (Str.rstrip raw)); congruence.
Qed.

Lemma inside_fence_verbatim_witness :
  body [nl "```"; nl "  | A | B |  "; nl "|---|---|"; nl "```"]
    (mk_state 1 true [] []) =
  Ok (mk_state 2 true [u "  | A | B |"] []).
Proof.
  apply (@inside_fence_verbatim
           [nl "```"; nl "  | A | B |  "; nl "|---|---|"; nl "```"]
           (mk_state 1 true [] []) (nl "  | A | B |  "));
    reflexivity.
Defined.

(** ** The texts handed to the library *)

Lemma forallb_skipn {A : Type} (q : A -> bool) (n : nat) (l : list A) :
  forallb q l = true -> forallb q (skipn n l) = true.
Proof.
  revert l; induction n as [|n IH]; intros [|x l] H; simpl; auto.
  simpl in H; apply andb_true_iff in H; now apply IH.
Qed.

Lemma forallb_rstrip (q : char -> bool) (s : str) :
  forallb q s = true -> forallb q (Str.rstrip s) = true.
Proof.
  intros H; unfold Str.rstrip, Str.lstrip.
  rewrite forallb_rev; apply forallb_drop_while; now rewrite forallb_rev.
Qed.

Lemma forallb_split (q : char -> bool) (sep : char) (s : str) :
  forallb q s = true ->
  Forall (fun seg => forallb q seg = true) (Str.split sep s).
Proof.
  induction s as [|c s IH]; intros H; [repeat constructor|].
  simpl in H; apply andb_true_iff in H as [Hc Hs]; specialize (IH Hs).
  cbn [Str.split]; destruct (c =? sep)%N; [now constructor|].
  destruct (Str.split sep s) as [|seg segs];
    [repeat constructor; simpl; now rewrite Hc|].
  inversion IH as [|? ? Hseg Hsegs]; subst.
  constructor; [simpl; now rewrite Hc, Hseg | exact Hsegs].
Qed.

Lemma cells_texts (line : str) :
  xml_text line = true ->
  Forall (fun text => xml_text text = true) (cells_of line).
Proof.
  intros H; apply Forall_forall; intros text Ht.
  unfold cells_of, slice_1_m1 in Ht.
  apply in_map_iff in Ht as (seg & <- & Hseg).
  apply in_removelast, in_tl in Hseg.
  pose proof (forallb_split xml_char PIPE line H) as Hall.
  rewrite Forall_forall in Hall.
  apply forallb_strip; now apply Hall.
Qed.

Lemma join_texts (parts : list str) :
  forallb xml_text parts = true -> xml_text (Str.join [LF] parts) = true.
Proof.
  induction parts as [|p parts IH]; intros H; [reflexivity|].
  simpl in H; apply andb_true_iff in H as [Hp Hps].
  destruct parts as [|p' parts]; [exact Hp|].
  change (xml_text (p ++ [LF] ++ Str.join [LF] (p' :: parts)) = true).
  unfold xml_text in *; rewrite !forallb_app, Hp, (IH Hps); reflexivity.
Qed.

Lemma splits_texts (q : char -> bool) (s : str) (parts : list str) :
  splits s parts ->
  forallb q s = true -> Forall (fun part => forallb q part = true) parts.
Proof.
  induction 1 as [s Hnone | pre g rest parts Hleft Hg Hs Hrest IH]; intros H.
  - now repeat constructor.
  - rewrite !forallb_app in H.
    apply andb_true_iff in H as [Hpre H].
    apply andb_true_iff in H as [_ H].
    apply andb_true_iff in H as [Hgq H].
    apply andb_true_iff in H as [_ H].
    repeat constructor; auto.
Qed.

Lemma enumerate_texts (f : nat * str -> run) (parts : list str) :
  (forall jp, run_text (f jp) = snd jp) ->
  forall k, map run_text (map f (enumerate_from k parts)) = parts.
Proof.
  intros Hf; induction parts as [|part parts IH]; intros k; [reflexivity|].
  cbn [enumerate_from map]; now rewrite Hf, IH.
Qed.

Lemma bold_runs_texts (parts : list str) :
  map run_text (bold_runs parts) = parts.
Proof.
  apply enumerate_texts; intros jp.
  destruct (Nat.eqb (fst jp mod 2) 1); reflexivity.
Qed.

Lemma forallb_Forall {A : Type} (q : A -> bool) (l : list A) :
  forallb q l = true <-> Forall (fun x => q x = true) l.
Proof.
  rewrite forallb_forall, Forall_forall; reflexivity.
Qed.

Lemma header_row_texts (cells : list str) :
  Forall (fun text => xml_text text = true) cells ->
  forallb (forallb paragraph_texts_ok) (map header_cell cells) = true.
Proof.
  induction 1 as [|text cells Ht _ IH]; [reflexivity|].
  cbn [map forallb]; rewrite IH.
  unfold header_cell, plain_paragraph, paragraph_texts_ok.
  cbn [forallb runs run_text]; now rewrite Ht.
Qed.

Lemma data_row_texts (cells : list str) :
  Forall (fun text => xml_text text = true) cells ->
  forallb (forallb paragraph_texts_ok) (map data_cell cells) = true.
Proof.
  induction 1 as [|text cells Ht _ IH]; [reflexivity|].
  cbn [map forallb]; rewrite IH.
  unfold data_cell, plain_paragraph, paragraph_texts_ok.
  cbn [forallb runs run_text]; now rewrite Ht.
Qed.

Lemma take_while_Forall {A : Type} (P : A -> Prop) (p : A -> bool)
    (l : list A) :
  Forall P l -> Forall P (take_while p l).
Proof.
  induction 1 as [|x l Hx _ IH]; [constructor|]; simpl.
  destruct (p x); [now constructor | constructor].
Qed.

Lemma skipn_Forall {A : Type} (P : A -> Prop) (n : nat) (l : list A) :
  Forall P l -> Forall P (skipn n l).
Proof.
  revert l; induction n as [|n IH]; intros l H; [exact H|].
  destruct H; [constructor | now apply IH].
Qed.

Lemma data_rows_texts (num_cols : nat) (rest : list str) :
  Forall (fun l => xml_text l = true) rest ->
  forallb (forallb (forallb paragraph_texts_ok)) (data_rows num_cols rest)
  = true.
Proof.
  intros H; apply forallb_forall; intros row Hrow.
  unfold data_rows in Hrow.
  apply in_map_iff in Hrow as (cells & <- & Hc).
  apply filter_In in Hc as [Hc _].
  apply in_map_iff in Hc as (l & <- & Hl).
  apply data_row_texts, cells_texts.
  pose proof (take_while_Forall has_pipe H) as Hall.
  rewrite Forall_forall in Hall; now apply Hall.
Qed.

Lemma document_texts_snoc (d : document) (e : element) :
  document_texts_ok d = true -> element_texts_ok e = true ->
  document_texts_ok (d ++ [e]) = true.
Proof.
  intros Hd He; unfold document_texts_ok in *.
  rewrite forallb_app, Hd; simpl; now rewrite He.
Qed.

Lemma add_heading_element (d : document) (text : str) (level : nat) :
  text <> [] -> 1 <= level <= 9 ->
  add_heading d text level = Ok (d ++ [heading_element level text]).
Proof.
  intros H L; destruct text as [|c text]; [congruence|].
  do 10 (destruct level as [|level]; [try lia; reflexivity|]); lia.
Qed.

(** An iteration on lines the library accepts hands it such texts only,
    and buffers such lines only. *)
Lemma body_texts (lines : list str) (st st' : state) :
  Forall (fun l => xml_text l = true) lines ->
  forallb xml_text (code_lines st) = true ->
  document_texts_ok (doc st) = true ->
  body lines st = Ok st' ->
  forallb xml_text (code_lines st') = true /\
  document_texts_ok (doc st') = true.
Proof.
  intros Hlines Hbuf Hdoc Hb; unfold body in Hb.
  destruct (nth_error lines (i st)) as [raw|] eqn:E;
    [|unfold index in Hb; rewrite E in Hb; discriminate].
  rewrite (index_nth _ _ E) in Hb; cbn [bind] in Hb.
  assert (Hraw : xml_text raw = true).
  { rewrite Forall_forall in Hlines; apply Hlines.
    exact (nth_error_In _ _ E). }
  pose proof (forallb_rstrip xml_char raw Hraw) as Hline.
  fold (xml_text (Str.rstrip raw)) in Hline.
  assert (Hpar : forall text,
             xml_text text = true ->
             document_texts_ok (add_paragraph (doc st) text false false false)
             = true).
  { intros text Ht.
    change (add_paragraph (doc st) text false false false)
      with (doc st ++ [text_paragraph text]).
    apply document_texts_snoc; [exact Hdoc|].
    unfold text_paragraph, plain_paragraph, element_texts_ok,
      paragraph_texts_ok.
    cbn [forallb runs run_text]; now rewrite Ht. }
  destruct (classify (Str.rstrip raw)) eqn:K;
    destruct (in_code_block st) eqn:F;
    try (injection Hb as <-; cbn [code_lines doc emit advance];
         split; [first [exact Hbuf
                       | rewrite forallb_app, Hbuf; simpl; now rewrite Hline]
                | first [exact Hdoc | now apply Hpar]]).
  - (* closing fence *)
    injection Hb as <-; cbn [code_lines doc]; split; [reflexivity|].
    change (add_code_block (doc st) (Str.join [LF] (code_lines st)))
      with (doc st ++ [code_block (Str.join [LF] (code_lines st))]).
    apply document_texts_snoc; [exact Hdoc|].
    unfold code_block, element_texts_ok, paragraph_texts_ok.
    cbn [forallb runs run_text]; now rewrite (join_texts _ Hbuf).
  - (* heading *)
    pose proof (classify_heading_level _ K) as L.
    rewrite (add_heading_element (doc st) (heading_text raw K)) in Hb by lia.
    injection Hb as <-; cbn [code_lines doc emit]; split; [exact Hbuf|].
    apply document_texts_snoc; [exact Hdoc|].
    unfold heading_element, element_texts_ok, paragraph_texts_ok.
    cbn [forallb runs run_text].
    rewrite andb_true_r.
    exact (forallb_skipn xml_char (S level) (Str.rstrip raw) Hline).
  - (* horizontal rule *)
    injection Hb as <-; cbn [code_lines doc emit]; split; [exact Hbuf|].
    now apply document_texts_snoc.
  - (* bullet *)
    injection Hb as <-; cbn [code_lines doc emit]; split; [exact Hbuf|].
    apply Hpar; unfold xml_text, bullet; cbn [app forallb].
    exact (forallb_skipn xml_char 2 (Str.rstrip raw) Hline).
  - (* inline bold *)
    injection Hb as <-; cbn [code_lines doc emit]; split; [exact Hbuf|].
    apply document_texts_snoc; [exact Hdoc|].
    rewrite fold_add_run.
    unfold element_texts_ok, paragraph_texts_ok, empty_paragraph.
    cbn [runs app].
    pose proof (splits_texts xml_char (split_splits (Str.rstrip raw)) Hline)
      as Hparts.
    apply forallb_Forall.
    rewrite <- (bold_runs_texts (Re.split (Str.rstrip raw))) in Hparts.
    rewrite Forall_map in Hparts; exact Hparts.
  - (* table *)
    destruct (cells_of (Str.rstrip raw)) as [|c cells] eqn:Ec;
      [injection Hb as <-; now split|].
    destruct (separator_follows lines (i st));
      [|injection Hb as <-; now split].
    assert (Hcells : Forall (fun text => xml_text text = true) (c :: cells))
      by (rewrite <- Ec; now apply cells_texts).
    rewrite table_rule_spec in Hb.
    injection Hb as <-; cbn [code_lines doc]; split; [exact Hbuf|].
    apply document_texts_snoc; [exact Hdoc|].
    unfold element_texts_ok; cbn [table_rows].
    change (forallb (forallb paragraph_texts_ok) (map header_cell (c :: cells))
            && forallb (forallb (forallb paragraph_texts_ok))
                 (data_rows (length (c :: cells)) (skipn (i st + 2) lines))
            = true).
    rewrite (header_row_texts Hcells).
    rewrite data_rows_texts by (now apply skipn_Forall).
    reflexivity.
Qed.

Lemma reachable_texts (lines : list str) (st : state) :
  Forall (fun l => xml_text l = true) lines ->
  reachable lines st ->
  forallb xml_text (code_lines st) = true /\
  document_texts_ok (doc st) = true.
Proof.
  intros Hlines; induction 1 as [|st st' R [IH1 IH2] Hi Hb]; [now split|].
  exact (@body_texts lines st st' Hlines IH1 IH2 Hb).
Qed.

(** X1.  On an input whose lines hold only characters the document library
    accepts, those of XML, the scan raises no exception and reads the input
    to its end.  Every text it hands to the library is made of characters of
    the lines, the bullet and the line feed, so the library finds no text to
    refuse, and the indexings of the source, [lines[i]],
    [heading.runs[0]], [hdr_cells[j]] and [row_cells[j]], are in range. *)
Theorem scan_never_raises (lines : list str) :
  Forall (fun l => xml_text l = true) lines ->
  exists st,
    loop (length lines) lines initial = Ok st /\
    i st = length lines /\
    scan lines = Ok (doc st) /\
    document_texts_ok (doc st) = true.
Proof.
  intros Hlines.
  destruct (@loop_exits (length lines) lines initial) as (st & H & Hge);
    [lia|].
  pose proof (loop_reachable _ (reach_initial lines) H) as R.
  exists st; repeat split.
  - exact H.
  - pose proof (reachable_bound R); lia.
  - unfold scan; now rewrite H.
  - exact (proj2 (reachable_texts Hlines R)).
Qed.

Lemma scan_never_raises_witness :
  exists st,
    loop 5 [nl "# T"; nl "- a | **b**"; nl "| A |"; nl "|---|"; nl "| 1 |"]
      initial = Ok st /\
    i st = 5 /\
    scan [nl "# T"; nl "- a | **b**"; nl "| A |"; nl "|---|"; nl "| 1 |"]
      = Ok (doc st) /\
    document_texts_ok (doc st) = true.
Proof.
  apply (@scan_never_raises
           [nl "# T"; nl "- a | **b**"; nl "| A |"; nl "|---|"; nl "| 1 |"]).
  repeat constructor.
Defined.

(** X19.  A run of [parse_markdown_to_docx] whose input cannot be read
    ends with the exception of the read and changes nothing.  A run that
    reads lines made of characters the library accepts always reaches
    [doc.save], with the scanned document and the output path: the files
    after the run are those [doc.save] leaves, and when [doc.save] raises,
    its exception is the result of the run and nothing is printed.  No
    content of such an input makes the run fail before the save. *)
Theorem run_reaches_save
    (content : Type) (readlines : content -> result (list str))
    (save : document -> path -> (path -> option content) ->
            (path -> option content) * result unit)
    (md_file docx_file : path) (w : world content) :
  (forall e,
     open_readlines readlines w md_file = Raise e ->
     parse_markdown_to_docx readlines save md_file docx_file w =
     (w, Raise e)) /\
  (forall lines,
     open_readlines readlines w md_file = Ok lines ->
     Forall (fun l => xml_text l = true) lines ->
     exists d,
       scan lines = Ok d /\
       document_texts_ok d = true /\
       files (fst (parse_markdown_to_docx readlines save md_file docx_file w))
       = fst (save d docx_file (files w)) /\
       forall fs e,
         save d docx_file (files w) = (fs, Raise e) ->
         parse_markdown_to_docx readlines save md_file docx_file w =
         (mk_world fs (stdout w), Raise e)).
Proof.
  split.
  - intros e O; unfold parse_markdown_to_docx; now rewrite O.
  - intros lines O Hlines.
    destruct (@loop_exits (length lines) lines initial) as (st & H & _);
      [lia|].
    pose proof (loop_reachable _ (reach_initial lines) H) as R.
    assert (Hd : scan lines = Ok (doc st)) by (unfold scan; now rewrite H).
    exists (doc st); repeat split.
    + exact Hd.
    + exact (proj2 (reachable_texts Hlines R)).
    + unfold parse_markdown_to_docx; rewrite O, Hd.
      destruct (save (doc st) docx_file (files w)) as [fs [[]|e]];
        reflexivity.
    + intros fs e S; unfold parse_markdown_to_docx.
      now rewrite O, Hd, S.
Qed.

Lemma run_reaches_save_witness :
  exists d,
    scan [nl "# Title"; nl "text"] = Ok d /\
    document_texts_ok d = true /\
    files (fst (parse_markdown_to_docx (fun c : list str => Ok c)
                  (fun _ _ fs => (fs, Raise OSError))
                  (u "a.md") (u "a.docx")
                  (mk_world (fun _ => Some [nl "# Title"; nl "text"]) [])))
    = fst ((fun (_ : document) (_ : path) (fs : path -> option (list str)) =>
              (fs, @Raise unit OSError)) d (u "a.docx")
             (fun _ => Some [nl "# Title"; nl "text"])) /\
    forall fs e,
      (fun (_ : document) (_ : path) (fs : path -> option (list str)) =>
         (fs, @Raise unit OSError)) d (u "a.docx")
        (fun _ => Some [nl "# Title"; nl "text"]) = (fs, Raise e) ->
      parse_markdown_to_docx (fun c : list str => Ok c)
        (fun _ _ fs => (fs, Raise OSError))
        (u "a.md") (u "a.docx")
        (mk_world (fun _ => Some [nl "# Title"; nl "text"]) []) =
      (mk_world fs [], Raise e).
Proof.
  apply (proj2 (@run_reaches_save (list str) (fun c => Ok c)
                  (fun _ _ fs => (fs, Raise OSError))
                  (u "a.md") (u "a.docx")
                  (mk_world (fun _ => Some [nl "# Title"; nl "text"]) []))
           [nl "# Title"; nl "text"]).
  - reflexivity.
  - repeat constructor.
Defined.
